(** * Room membership server (server.js): model and verification

    The server keeps one registry object [rooms] and reacts to socket.io
    events.  Every handler of server.js is embedded below as a function from
    the server state to the new state and the list of messages it emits,
    or, for the listeners that can throw, to an [Outcome].

    What belongs to the socket.io library and not to server.js is modelled
    from its documented behaviour:
    - [sockets] is [io.sockets.sockets], the connected sockets;
    - [adapter] is the room table of the in-memory adapter, restricted to
      the names that server.js passes to [socket.join], which are ids of the
      registry; the room that every socket has under its own id is
      represented by [sockets] itself (a uuid never equals a socket id);
    - [socket.emit] reaches the socket, [io.to(r).emit] reaches every socket
      of room [r], [socket.to(r).emit] every socket of room [r] but the
      sender;
    - a socket leaves all its rooms and [io.sockets.sockets] before its
      "disconnect" listeners run, and [disconnect(true)] runs them at once;
    - events of a socket that is not connected are dropped.

    The registry [rooms] and the tables [participants] and
    [waitingParticipants] of a room are plain JS objects used as
    dictionaries.  Their own properties are the entries of a [gmap]; what a
    lookup finds besides, under the names that every object inherits from
    [Object.prototype], is told by [inherited_name].  The ids of sockets are
    socket.io's and the ids of rooms are uuids; the names that a client
    sends as [roomId] or [participantId] are any strings, and the other
    fields of a request are taken to be present and of their type.

    A listener that throws is not caught by socket.io: the exception ends
    the process.  Such a listener has the outcome [Throws]; a handler of
    express that throws answers 500.  [new Date()] reads the clock [now]
    (milliseconds), which only [Elapse] advances. *)

From stdpp Require Import base option list strings gmap sets fin_maps.

(** * The model *)

Abbreviation SocketId := string (only parsing).
Abbreviation RoomId := string (only parsing).

(** ** Data model *)

(** The value stored in [room.participants] (lines 95-104 and 159-164). *)
Record Participant := mkParticipant {
  p_id : SocketId;
  username : string;
  peerId : string;
  socketId : SocketId;
  joinedAt : N;
  audioEnabled : bool;
  videoEnabled : bool;
  isHost : bool
}.

(** The value stored in [room.waitingParticipants] (lines 117-123). *)
Record WaitingParticipant := mkWaiting {
  w_id : SocketId;
  w_username : string;
  w_peerId : string;
  w_socketId : SocketId;
  w_joinedAt : N
}.

Record Settings := mkSettings {
  requireApproval : bool;
  allowedToJoin : list string
}.

(** A room of the registry (lines 25-36). *)
Record Room := mkRoom {
  r_id : RoomId;
  participants : gmap string Participant;
  waitingParticipants : gmap string WaitingParticipant;
  hostId : option SocketId;
  hostPeerId : option string;
  createdAt : N;
  settings : Settings
}.

Global Instance Participant_eq_dec : EqDecision Participant.
Proof. solve_decision. Defined.
Global Instance WaitingParticipant_eq_dec : EqDecision WaitingParticipant.
Proof. solve_decision. Defined.
Global Instance Settings_eq_dec : EqDecision Settings.
Proof. solve_decision. Defined.
Global Instance Room_eq_dec : EqDecision Room.
Proof. solve_decision. Defined.

(** Messages sent by the server, one constructor per event name. *)
Inductive Msg :=
| RoomError (message : string)
| HostStatus (is_host : bool)
| RoomParticipants (roster : gmap string Participant)
| WaitingForApproval (message : string)
| JoinRequest (participantId : SocketId) (user peer : string)
| ErrorMsg (message : string)
| ApprovalGranted
| UserJoined (participantId : SocketId) (user peer : string)
| ApprovalRejected (message : string)
| UserToggleAudio (participantId : SocketId) (peer : string) (enabled : bool)
| UserToggleVideo (participantId : SocketId) (peer : string) (enabled : bool)
| YouWereRemoved
| UserRemoved (participantId : SocketId) (peer : string)
| WaitingParticipantsMsg (waiting : list WaitingParticipant)
| HostLeft
| UserLeft (participantId : SocketId) (peer : string)
| Pong.

(** How a message was addressed: to one socket, or to a socket.io room. *)
Inductive Channel :=
| Direct
| InRoom (roomId : RoomId).

Global Instance Channel_eq_dec : EqDecision Channel.
Proof. solve_decision. Defined.

Record Delivery := mkDelivery {
  channel : Channel;
  recipient : SocketId;
  payload : Msg
}.

(** The whole server. *)
Record Server := mkServer {
  rooms : gmap string Room;
  sockets : gset string;
  adapter : gmap string (gset string);
  timers : list (N * RoomId);
  now : N
}.

Definition init : Server :=
  {| rooms := ∅; sockets := ∅; adapter := ∅; timers := []; now := 0%N |}.

(** ** socket.io primitives *)

Definition room_sockets (s : Server) (roomId : RoomId) : gset string :=
  default ∅ (adapter s !! roomId).

(** [socket.join(roomId)] *)
Definition socket_join (sid : SocketId) (roomId : RoomId)
    (a : gmap string (gset string)) : gmap string (gset string) :=
  <[roomId := {[sid]} ∪ default ∅ (a !! roomId)]> a.

(** [socket.emit(msg)] *)
Definition socket_emit (sid : SocketId) (m : Msg) : list Delivery :=
  [mkDelivery Direct sid m].

(** [io.to(sid).emit(msg)] for a socket id: the room of that socket. *)
Definition io_to_socket (s : Server) (sid : SocketId) (m : Msg) : list Delivery :=
  if decide (sid ∈ sockets s) then [mkDelivery Direct sid m] else [].

(** [io.to(roomId).emit(msg)] *)
Definition io_to_room (s : Server) (roomId : RoomId) (m : Msg) : list Delivery :=
  (λ x, mkDelivery (InRoom roomId) x m) <$> elements (room_sockets s roomId).

(** [socket.to(roomId).emit(msg)]: the sender is excluded. *)
Definition socket_to_room (s : Server) (sid : SocketId) (roomId : RoomId)
    (m : Msg) : list Delivery :=
  (λ x, mkDelivery (InRoom roomId) x m)
    <$> elements (room_sockets s roomId ∖ {[sid]}).

(** ** Objects used as dictionaries *)

(** The property names of [Object.prototype].  For an object [{}] and one
    of these names [k], [obj[k]] is a function, or the prototype itself for
    "__proto__": a truthy value, though [k] is no own property; [delete
    obj[k]] then does nothing. *)
Definition inherited_names : list string :=
  ["constructor"; "__defineGetter__"; "__defineSetter__"; "hasOwnProperty";
   "__lookupGetter__"; "__lookupSetter__"; "isPrototypeOf";
   "propertyIsEnumerable"; "toString"; "valueOf"; "__proto__";
   "toLocaleString"].

Definition inherited_name (k : string) : bool :=
  bool_decide (k ∈ inherited_names).

(** ** How a listener ends *)

(** A listener returns, with the new state and the messages it has sent, or
    it throws at a line of server.js.  The exception is caught by nobody
    and ends the process: no state follows. *)
Inductive Outcome :=
| Returns (s : Server) (out : list Delivery)
| Throws (line : nat).

Definition thrown (o : Outcome) : bool :=
  match o with Throws _ => true | Returns _ _ => false end.

(** ** Record updates *)

Definition set_rooms (rs : gmap string Room) (s : Server) : Server :=
  {| rooms := rs; sockets := sockets s; adapter := adapter s;
     timers := timers s; now := now s |}.

Definition set_adapter (a : gmap string (gset string)) (s : Server) : Server :=
  {| rooms := rooms s; sockets := sockets s; adapter := a;
     timers := timers s; now := now s |}.

Definition set_participants (ps : gmap string Participant) (r : Room) : Room :=
  {| r_id := r_id r; participants := ps;
     waitingParticipants := waitingParticipants r; hostId := hostId r;
     hostPeerId := hostPeerId r; createdAt := createdAt r;
     settings := settings r |}.

Definition set_waiting (ws : gmap string WaitingParticipant) (r : Room) : Room :=
  {| r_id := r_id r; participants := participants r;
     waitingParticipants := ws; hostId := hostId r;
     hostPeerId := hostPeerId r; createdAt := createdAt r;
     settings := settings r |}.

Definition set_host (h : option SocketId) (hp : option string) (r : Room) : Room :=
  {| r_id := r_id r; participants := participants r;
     waitingParticipants := waitingParticipants r; hostId := h;
     hostPeerId := hp; createdAt := createdAt r;
     settings := settings r |}.

(** ** Handlers *)

(** [POST /api/room] (lines 23-39); [roomId] is the value of [uuidv4()]. *)
Definition create_room (roomId : RoomId) (s : Server) : Server :=
  set_rooms
    (<[roomId := {| r_id := roomId; participants := ∅;
                    waitingParticipants := ∅; hostId := None;
                    hostPeerId := None; createdAt := now s;
                    settings := {| requireApproval := true;
                                   allowedToJoin := [] |} |}]> (rooms s)) s.

(** [io.on("connection")] (line 64). *)
Definition connect (sid : SocketId) (s : Server) : Server :=
  {| rooms := rooms s; sockets := {[sid]} ∪ sockets s; adapter := adapter s;
     timers := timers s; now := now s |}.

(** ["join-room"] (lines 68-141). *)
Definition join_room (sid : SocketId) (roomId : RoomId) (user peer : string)
    (isHostFlag : bool) (s : Server) : Outcome :=
  match rooms s !! roomId with
  | None =>
    (* [rooms[roomId]] at line 76 is truthy for an inherited name.  The
       value found has no [hostId], so the branch of the host is taken:
       lines 88-92 write [hostId] and [hostPeerId] on that value and let
       the socket join; it has no [participants], and line 95 throws. *)
    if inherited_name roomId then Throws 95
    else Returns s (socket_emit sid (RoomError "Room does not exist"))
  | Some room =>
    let participantId := sid in
    if isHostFlag || negb (bool_decide (is_Some (hostId room))) then
      let room1 := set_host (Some participantId) (Some peer) room in
      let room2 :=
        set_participants
          (<[participantId :=
               {| p_id := participantId; username := user; peerId := peer;
                  socketId := sid; joinedAt := now s; audioEnabled := true;
                  videoEnabled := true; isHost := true |}]>
             (participants room1)) room1 in
      Returns
        (set_rooms (<[roomId := room2]> (rooms s))
           (set_adapter (socket_join sid roomId (adapter s)) s))
        (socket_emit sid (HostStatus true)
           ++ socket_emit sid (RoomParticipants ∅))
    else
      let room1 :=
        set_waiting
          (<[participantId :=
               {| w_id := participantId; w_username := user; w_peerId := peer;
                  w_socketId := sid; w_joinedAt := now s |}]>
             (waitingParticipants room)) room in
      Returns
        (set_rooms (<[roomId := room1]> (rooms s)) s)
        (socket_emit sid
             (WaitingForApproval
                "Waiting for host approval to join the meeting")
           ++ match hostId room1 with
              | Some h =>
                io_to_socket s h (JoinRequest participantId user peer)
              | None => []
              end)
  end.

(** The body of the loop of the "disconnect" listener for one room (lines
    309-339): the room once the socket [sid] has been taken out of it. *)
Definition disconnect_room (sid : SocketId) (room : Room) : Room :=
  let room1 :=
    match participants room !! sid with
    | Some participant =>
      let room0 :=
        if decide (hostId room = Some sid) then set_host None None room
        else room in
      set_participants (delete sid (participants room0)) room0
    | None => room
    end in
  match waitingParticipants room1 !! sid with
  | Some _ => set_waiting (delete sid (waitingParticipants room1)) room1
  | None => room1
  end.

(** The messages of that iteration (lines 317-331); [s] is the server once
    the socket has left its socket.io rooms. *)
Definition disconnect_emits (s : Server) (sid : SocketId) (roomId : RoomId)
    (room : Room) : list Delivery :=
  match participants room !! sid with
  | Some participant =>
    if decide (hostId room = Some sid) then io_to_room s roomId HostLeft
    else socket_to_room s sid roomId (UserLeft sid (peerId participant))
  | None => []
  end.

(** [Object.keys(room.participants).length === 0 &&
     Object.keys(room.waitingParticipants).length === 0] *)
Definition room_empty (room : Room) : bool :=
  (size (participants room) =? 0) && (size (waitingParticipants room) =? 0).

(** The delay of [setTimeout] at line 355, in milliseconds. *)
Definition grace : N := 60000.

(** The timer of that iteration (lines 342-356), as its due time and the
    [roomId] its callback closes over. *)
Definition disconnect_timer (s : Server) (sid : SocketId) (roomId : RoomId)
    (room : Room) : list (N * RoomId) :=
  if room_empty (disconnect_room sid room)
  then [((now s + grace)%N, roomId)] else [].

(** The "disconnect" listener (lines 304-358).  An iteration of
    [for (const roomId in rooms)] reads and writes its own room only, so the
    loop is a map over the registry.  The loop visits the rooms in the
    order of their creation, [map_to_list] in the order of the keys: the
    messages of different rooms and the timers of one run of the listener,
    which are all due at the same time, may come in another order here. *)
Definition on_disconnect (sid : SocketId) (s : Server) : Server * list Delivery :=
  ({| rooms := disconnect_room sid <$> rooms s;
      sockets := sockets s; adapter := adapter s;
      timers := timers s
        ++ (map_to_list (rooms s)
              ≫= λ kr, disconnect_timer s sid kr.1 kr.2);
      now := now s |},
   map_to_list (rooms s) ≫= λ kr, disconnect_emits s sid kr.1 kr.2).

(** The socket [sid] leaves its socket.io rooms and the socket table. *)
Definition socket_leave_all (sid : SocketId) (s : Server) : Server :=
  {| rooms := rooms s; sockets := sockets s ∖ {[sid]};
     adapter := (λ members : gset string, members ∖ {[sid]}) <$> adapter s;
     timers := timers s; now := now s |}.

(** The socket closes, by itself or by [disconnect(true)]: it leaves, then
    the listener runs.  A socket that is not connected is left alone. *)
Definition disconnect (sid : SocketId) (s : Server) : Server * list Delivery :=
  if decide (sid ∈ sockets s) then on_disconnect sid (socket_leave_all sid s)
  else (s, []).

(** [io.sockets.sockets.get(participantId)?.disconnect(true)] after a
    handler that reached state [s] and emitted [out]. *)
Definition then_disconnect (participantId : SocketId)
    (r : Server * list Delivery) : Server * list Delivery :=
  let (s', out') := disconnect participantId r.1 in (s', r.2 ++ out').

(** ["approve-participant"] (lines 144-199).  An inherited name as [roomId]
    gives a value without [hostId], which line 148 answers like a missing
    room.  For an inherited name as [participantId] that is no waiting
    entry, line 153 finds a truthy value and lines 159-164 make a record of
    it that has no [id]: [Participant] holds no such record, and this
    function is the handler for the other requests, those of [plain]. *)
Definition approve_participant (sid : SocketId) (roomId : RoomId)
    (participantId : SocketId) (s : Server) : Server * list Delivery :=
  match rooms s !! roomId with
  | None => (s, socket_emit sid (ErrorMsg "Unauthorized"))
  | Some room =>
    if decide (hostId room ≠ Some sid) then
      (s, socket_emit sid (ErrorMsg "Unauthorized"))
    else
      match waitingParticipants room !! participantId with
      | None => (s, [])
      | Some waitingParticipant =>
        let room1 :=
          set_participants
            (<[participantId :=
                 {| p_id := w_id waitingParticipant;
                    username := w_username waitingParticipant;
                    peerId := w_peerId waitingParticipant;
                    socketId := w_socketId waitingParticipant;
                    joinedAt := w_joinedAt waitingParticipant;
                    audioEnabled := true; videoEnabled := true;
                    isHost := false |}]> (participants room)) room in
        let room2 :=
          set_waiting (delete participantId (waitingParticipants room1)) room1 in
        let s1 := set_rooms (<[roomId := room2]> (rooms s)) s in
        if decide (participantId ∈ sockets s1) then
          let s2 := set_adapter (socket_join participantId roomId (adapter s1)) s1 in
          let existingParticipants :=
            filter (λ kv, kv.1 ≠ participantId) (participants room2) in
          (s2,
           socket_emit participantId ApprovalGranted
             ++ socket_emit participantId (RoomParticipants existingParticipants)
             ++ socket_to_room s2 sid roomId
                  (UserJoined participantId (w_username waitingParticipant)
                     (w_peerId waitingParticipant)))
        else (s1, [])
      end
  end.

(** ["reject-participant"] (lines 202-229).  For an inherited name as
    [participantId] line 212 finds a truthy value, line 217 deletes nothing
    and no socket has that id. *)
Definition reject_participant (sid : SocketId) (roomId : RoomId)
    (participantId : SocketId) (s : Server) : Server * list Delivery :=
  match rooms s !! roomId with
  | None => (s, socket_emit sid (ErrorMsg "Unauthorized"))
  | Some room =>
    if decide (hostId room ≠ Some sid) then
      (s, socket_emit sid (ErrorMsg "Unauthorized"))
    else
      match waitingParticipants room !! participantId with
      | None => (s, [])
      | Some waitingParticipant =>
        let room1 :=
          set_waiting (delete participantId (waitingParticipants room)) room in
        let s1 := set_rooms (<[roomId := room1]> (rooms s)) s in
        if decide (participantId ∈ sockets s1) then
          then_disconnect participantId
            (s1, socket_emit participantId
                   (ApprovalRejected
                      "Host denied your request to join the meeting"))
        else (s1, [])
      end
  end.

Definition set_audio (enabled : bool) (p : Participant) : Participant :=
  {| p_id := p_id p; username := username p; peerId := peerId p;
     socketId := socketId p; joinedAt := joinedAt p; audioEnabled := enabled;
     videoEnabled := videoEnabled p; isHost := isHost p |}.

Definition set_video (enabled : bool) (p : Participant) : Participant :=
  {| p_id := p_id p; username := username p; peerId := peerId p;
     socketId := socketId p; joinedAt := joinedAt p;
     audioEnabled := audioEnabled p; videoEnabled := enabled;
     isHost := isHost p |}.

(** ["toggle-audio"] (lines 232-245).  For an inherited name
    [rooms[roomId]] is truthy and has no [participants]: the second operand
    of [&&] at line 235 throws. *)
Definition toggle_audio (sid : SocketId) (roomId : RoomId) (peer : string)
    (enabled : bool) (s : Server) : Outcome :=
  match rooms s !! roomId with
  | None => if inherited_name roomId then Throws 235 else Returns s []
  | Some room =>
    match participants room !! sid with
    | None => Returns s []
    | Some p =>
      Returns
        (set_rooms
           (<[roomId := set_participants
                          (<[sid := set_audio enabled p]> (participants room))
                          room]> (rooms s)) s)
        (socket_to_room s sid roomId (UserToggleAudio sid peer enabled))
    end
  end.

(** ["toggle-video"] (lines 248-261); line 251 throws like line 235. *)
Definition toggle_video (sid : SocketId) (roomId : RoomId) (peer : string)
    (enabled : bool) (s : Server) : Outcome :=
  match rooms s !! roomId with
  | None => if inherited_name roomId then Throws 251 else Returns s []
  | Some room =>
    match participants room !! sid with
    | None => Returns s []
    | Some p =>
      Returns
        (set_rooms
           (<[roomId := set_participants
                          (<[sid := set_video enabled p]> (participants room))
                          room]> (rooms s)) s)
        (socket_to_room s sid roomId (UserToggleVideo sid peer enabled))
    end
  end.

(** ["remove-participant"] (lines 264-289).  For an inherited name as
    [participantId] that is no key of [participants], line 273 finds a
    truthy value: lines 275-281 send their messages, line 284 deletes
    nothing and line 287 finds a socket only if one has that id. *)
Definition remove_participant (sid : SocketId) (roomId : RoomId)
    (participantId : SocketId) (peer : string) (s : Server)
    : Server * list Delivery :=
  match rooms s !! roomId with
  | None => (s, socket_emit sid (ErrorMsg "Only host can remove participants"))
  | Some room =>
    if decide (hostId room ≠ Some sid) then
      (s, socket_emit sid (ErrorMsg "Only host can remove participants"))
    else
      match participants room !! participantId with
      | None =>
        if inherited_name participantId then
          then_disconnect participantId
            (s,
             io_to_socket s participantId YouWereRemoved
               ++ socket_to_room s sid roomId
                    (UserRemoved participantId peer))
        else (s, [])
      | Some _ =>
        let room1 :=
          set_participants (delete participantId (participants room)) room in
        then_disconnect participantId
          (set_rooms (<[roomId := room1]> (rooms s)) s,
           io_to_socket s participantId YouWereRemoved
             ++ socket_to_room s sid roomId (UserRemoved participantId peer))
      end
  end.

(** ["get-waiting-participants"] (lines 292-301).  An inherited name as
    [roomId] gives a value without [hostId]: line 294 returns.  The list
    comes in the order of the keys here, in the order of insertion from
    [Object.values]. *)
Definition get_waiting_participants (sid : SocketId) (roomId : RoomId)
    (s : Server) : Server * list Delivery :=
  match rooms s !! roomId with
  | None => (s, [])
  | Some room =>
    if decide (hostId room ≠ Some sid) then (s, [])
    else
      (s, socket_emit sid
            (WaitingParticipantsMsg (map_to_list (waitingParticipants room)).*2))
  end.

(** ["ping"] (lines 361-363).  [callback] is the acknowledgement function of
    socket.io when the client asked for one, and calling it answers the
    client; a client that sent none makes line 362 call what is no
    function. *)
Definition ping (sid : SocketId) (ack : bool) (s : Server) : Outcome :=
  if ack then Returns s (socket_emit sid Pong) else Throws 362.

(** The callback of the timer (lines 346-355) on the registry. *)
Definition reap (roomId : RoomId) (rs : gmap string Room) : gmap string Room :=
  match rs !! roomId with
  | Some room => if room_empty room then delete roomId rs else rs
  | None => rs
  end.

(** The clock advances by [dt] milliseconds: the timers that are due by
    then fire, in the order in which they were set. *)
Definition elapse (dt : N) (s : Server) : Server :=
  let t := (now s + dt)%N in
  {| rooms := foldl (λ rs tr, reap tr.2 rs) (rooms s)
                (filter (λ tr, (tr.1 ≤ t)%N) (timers s));
     sockets := sockets s; adapter := adapter s;
     timers := filter (λ tr, ¬ (tr.1 ≤ t)%N) (timers s);
     now := t |}.

(** ** Events and runs *)

Inductive Event :=
| CreateRoom (roomId : RoomId)
| Connect (sid : SocketId)
| JoinRoom (sid : SocketId) (roomId : RoomId) (user peer : string)
    (isHostFlag : bool)
| ApproveParticipant (sid : SocketId) (roomId : RoomId)
    (participantId : SocketId)
| RejectParticipant (sid : SocketId) (roomId : RoomId)
    (participantId : SocketId)
| ToggleAudio (sid : SocketId) (roomId : RoomId) (peer : string)
    (enabled : bool)
| ToggleVideo (sid : SocketId) (roomId : RoomId) (peer : string)
    (enabled : bool)
| RemoveParticipant (sid : SocketId) (roomId : RoomId)
    (participantId : SocketId) (peer : string)
| GetWaitingParticipants (sid : SocketId) (roomId : RoomId)
| Ping (sid : SocketId) (ack : bool)
| Disconnect (sid : SocketId)
| Elapse (dt : N).

(** A listener of socket [sid] runs only while the socket is connected. *)
Definition on_socket (sid : SocketId)
    (handler : Server → Server * list Delivery) (s : Server)
    : Server * list Delivery :=
  if decide (sid ∈ sockets s) then handler s else (s, []).

(** The running server after a listener that may throw.  When it throws,
    the process ends and there is no state to go on from: [settle] answers
    the state before the event with no message, and [throws] below tells
    that the server has stopped there. *)
Definition settle (handler : Server → Outcome) (s : Server)
    : Server * list Delivery :=
  match handler s with
  | Returns s' out => (s', out)
  | Throws _ => (s, [])
  end.

Definition step (e : Event) (s : Server) : Server * list Delivery :=
  match e with
  | CreateRoom roomId => (create_room roomId s, [])
  | Connect sid => (connect sid s, [])
  | JoinRoom sid roomId user peer isHostFlag =>
    on_socket sid (settle (join_room sid roomId user peer isHostFlag)) s
  | ApproveParticipant sid roomId participantId =>
    on_socket sid (approve_participant sid roomId participantId) s
  | RejectParticipant sid roomId participantId =>
    on_socket sid (reject_participant sid roomId participantId) s
  | ToggleAudio sid roomId peer enabled =>
    on_socket sid (settle (toggle_audio sid roomId peer enabled)) s
  | ToggleVideo sid roomId peer enabled =>
    on_socket sid (settle (toggle_video sid roomId peer enabled)) s
  | RemoveParticipant sid roomId participantId peer =>
    on_socket sid (remove_participant sid roomId participantId peer) s
  | GetWaitingParticipants sid roomId =>
    on_socket sid (get_waiting_participants sid roomId) s
  | Ping sid ack => on_socket sid (settle (ping sid ack)) s
  | Disconnect sid => disconnect sid s
  | Elapse dt => (elapse dt s, [])
  end.

(** The events whose listener throws in state [s]; the other listeners and
    the timer callback have no line that can. *)
Definition throws (e : Event) (s : Server) : bool :=
  match e with
  | JoinRoom sid roomId user peer isHostFlag =>
    bool_decide (sid ∈ sockets s)
    && thrown (join_room sid roomId user peer isHostFlag s)
  | ToggleAudio sid roomId peer enabled =>
    bool_decide (sid ∈ sockets s)
    && thrown (toggle_audio sid roomId peer enabled s)
  | ToggleVideo sid roomId peer enabled =>
    bool_decide (sid ∈ sockets s)
    && thrown (toggle_video sid roomId peer enabled s)
  | Ping sid ack => bool_decide (sid ∈ sockets s) && thrown (ping sid ack s)
  | _ => false
  end.

(** The server after a list of events, and everything it sent.  Past a
    listener that throws there is no server any more; [run] goes on from the
    state before it, which is the last state the server was in. *)
Fixpoint run (evs : list Event) (s : Server) : Server * list Delivery :=
  match evs with
  | [] => (s, [])
  | e :: evs' =>
    let (s1, out1) := step e s in
    let (s2, out2) := run evs' s1 in (s2, out1 ++ out2)
  end.

(** What the environment guarantees: [uuidv4()] returns an id that is not
    in use, and a new connection has an id that is not connected. *)
Definition admissible (s : Server) (e : Event) : Prop :=
  match e with
  | CreateRoom roomId => rooms s !! roomId = None
  | Connect sid => sid ∉ sockets s
  | _ => True
  end.

Inductive reachable : Server → Prop :=
| reachable_init : reachable init
| reachable_step s e :
    reachable s → admissible s e → reachable (step e s).1.

(** * Properties *)

(** The messages that socket [x] receives in [out]. *)
Definition received (x : SocketId) (out : list Delivery) : list Msg :=
  payload <$> filter (λ d, recipient d = x) out.

(** The messages that socket [x] receives in [out] through the socket.io
    room [roomId]. *)
Definition received_in (roomId : RoomId) (x : SocketId) (out : list Delivery)
    : list Msg :=
  payload <$> filter (λ d, channel d = InRoom roomId ∧ recipient d = x) out.

(** Recognisers of three kinds of message. *)
Definition is_user_joined (m : Msg) : bool :=
  match m with UserJoined _ _ _ => true | _ => false end.

Definition is_host_left (m : Msg) : bool :=
  match m with HostLeft => true | _ => false end.

Definition is_room_participants (m : Msg) : bool :=
  match m with RoomParticipants _ => true | _ => false end.

(** A connection is in a room when it is joined or waiting there. *)
Definition present (c : SocketId) (room : Room) : Prop :=
  c ∈ dom (participants room) ∨ c ∈ dom (waitingParticipants room).

(** [x] is a key of [participants], of [waitingParticipants], of the room
    registered under [r]. *)
Definition joined (s : Server) (r : RoomId) (x : SocketId) : Prop :=
  ∃ room, rooms s !! r = Some room ∧ is_Some (participants room !! x).

Definition waiting_in (s : Server) (r : RoomId) (x : SocketId) : Prop :=
  ∃ room, rooms s !! r = Some room ∧ is_Some (waitingParticipants room !! x).

(** The sockets of the socket.io room of a room id are the keys of
    [participants] of that room of the registry; they and the waiting
    entrants are connected. *)
Record consistent (s : Server) : Prop := mkConsistent {
  adapter_joined : ∀ r x, x ∈ room_sockets s r ↔ joined s r x;
  adapter_live : ∀ r x, x ∈ room_sockets s r → x ∈ sockets s;
  waiting_live : ∀ r x, waiting_in s r x → x ∈ sockets s
}.

(** [admissible] can be decided. *)
Global Instance admissible_dec (s : Server) (e : Event) :
  Decision (admissible s e).
Proof. destruct e; simpl; apply _. Defined.

(** A boolean check of [admissible] along a list of events. *)
Fixpoint admissible_run (evs : list Event) (s : Server) : bool :=
  match evs with
  | [] => true
  | e :: evs' =>
    bool_decide (admissible s e) && admissible_run evs' (step e s).1
  end.

(** The join-room requests for room [roomId]. *)
Definition joins (roomId : RoomId) (e : Event) : bool :=
  match e with
  | JoinRoom _ r _ _ _ => bool_decide (r = roomId)
  | _ => false
  end.

(** The events in which the server closes, or may close, a socket. *)
Definition closes_socket (e : Event) : bool :=
  match e with
  | Disconnect _ | RejectParticipant _ _ _ | RemoveParticipant _ _ _ _ => true
  | _ => false
  end.

(** "A room that is created and never joined stays in the registry for
    ever", over the runs of the server. *)
Definition never_joined_room_persists : Prop :=
  ∀ (before after : list Event) (roomId : RoomId),
    admissible_run (before ++ CreateRoom roomId :: after) init = true →
    forallb (λ e, negb (joins roomId e)) (before ++ after) = true →
    is_Some (rooms (run (before ++ CreateRoom roomId :: after) init).1 !! roomId).

(** Every connection is joined or waiting in at most one room. *)
Definition single_room (s : Server) : Prop :=
  ∀ (c : SocketId) (r1 r2 : RoomId) (room1 room2 : Room),
    rooms s !! r1 = Some room1 → rooms s !! r2 = Some room2 →
    present c room1 → present c room2 → r1 = r2.

(** "In every reachable state a connection belongs to at most one room." *)
Definition single_room_always : Prop := ∀ s, reachable s → single_room s.

(** The join-room requests that [single_room] can live with: the caller is
    in no other room than the one it asks for. *)
Definition joins_own_room (s : Server) (e : Event) : Prop :=
  match e with
  | JoinRoom sid roomId _ _ _ =>
    ∀ r room, rooms s !! r = Some room → present sid room → r = roomId
  | _ => True
  end.

(** [s'] has nobody in a room who was not there in [s], but for [extra]. *)
Definition presence_within (extra : option (SocketId * RoomId))
    (s s' : Server) : Prop :=
  ∀ (r : RoomId) (room' : Room) (c : SocketId),
    rooms s' !! r = Some room' → present c room' →
    (∃ room, rooms s !! r = Some room ∧ present c room)
    ∨ extra = Some (c, r).

(** "The approved candidate gets the roster without itself and every other
    member of the room, the host included, gets one user-joined." *)
Definition approve_notifies_all (s : Server) (host : SocketId)
    (roomId : RoomId) (participantId : SocketId) : Prop :=
  ∀ (room : Room) (w : WaitingParticipant),
    host ∈ sockets s → participantId ∈ sockets s →
    rooms s !! roomId = Some room →
    hostId room = Some host →
    waitingParticipants room !! participantId = Some w →
    ∃ room',
      rooms (step (ApproveParticipant host roomId participantId) s).1 !! roomId
        = Some room'
      ∧ filter (λ m, is_room_participants m)
          (received participantId
             (step (ApproveParticipant host roomId participantId) s).2)
        = [RoomParticipants (delete participantId (participants room'))]
      ∧ ∀ x, is_Some (participants room' !! x) → x ≠ participantId →
          filter (λ m, is_user_joined m)
            (received x (step (ApproveParticipant host roomId participantId) s).2)
          = [UserJoined participantId (w_username w) (w_peerId w)].

(** "A join-room request for a room id that is not in the registry is
    answered with room-error, and the state stays as it is." *)
Definition join_unknown_refused (s : Server) (sid : SocketId)
    (roomId : RoomId) (user peer : string) (isHostFlag : bool) : Prop :=
  sid ∈ sockets s →
  rooms s !! roomId = None →
  join_room sid roomId user peer isHostFlag s
  = Returns s [mkDelivery Direct sid (RoomError "Room does not exist")].

(** "At most one participant of the room has [isHost = true]; it is the
    one named by [hostId] when [hostId] is present; a participant with
    [isHost = true] exists exactly when [hostId] holds its id." *)
Definition host_invariant (room : Room) : Prop :=
  (∀ x y px py,
     participants room !! x = Some px → participants room !! y = Some py →
     isHost px = true → isHost py = true → x = y)
  ∧ (∀ h x px,
       hostId room = Some h → participants room !! x = Some px →
       isHost px = true → x = h)
  ∧ (∀ x,
       (∃ px, participants room !! x = Some px ∧ isHost px = true)
       ↔ hostId room = Some x).

(** "No connection id is a key of both [participants] and
    [waitingParticipants] of a room." *)
Definition disjoint_sets (room : Room) : Prop :=
  ∀ x, ¬ (is_Some (participants room !! x)
          ∧ is_Some (waitingParticipants room !! x)).

(** [disjoint_sets], and below [host_invariant], of every room. *)
Definition all_disjoint (s : Server) : Prop :=
  ∀ r room, rooms s !! r = Some room → disjoint_sets room.

(** The join-room requests of connections that are not yet in the room. *)
Definition joins_afresh (s : Server) (e : Event) : Prop :=
  match e with
  | JoinRoom sid roomId _ _ _ =>
    ∀ room, rooms s !! roomId = Some room → ¬ present sid room
  | _ => True
  end.

(** The last clause of [host_invariant], which gives the other two. *)
Definition host_slot (room : Room) : Prop :=
  ∀ x, (∃ px, participants room !! x = Some px ∧ isHost px = true)
       ↔ hostId room = Some x.

Definition all_hosts (s : Server) : Prop :=
  ∀ r room, rooms s !! r = Some room → host_invariant room.

(** The events that leave the host of a room alone: nobody asks to be host
    of a room that has another host, and the host neither approves nor
    removes itself. *)
Definition host_respected (s : Server) (e : Event) : Prop :=
  match e with
  | JoinRoom sid roomId _ _ isHostFlag =>
    isHostFlag = true →
    ∀ room, rooms s !! roomId = Some room →
            hostId room = None ∨ hostId room = Some sid
  | ApproveParticipant sid _ participantId => participantId ≠ sid
  | RemoveParticipant sid _ participantId _ => participantId ≠ sid
  | _ => True
  end.

(** ** Scenarios *)

(** Room "R" with its host "A". *)
Definition hosted_room : list Event :=
  [CreateRoom "R"; Connect "A"; JoinRoom "A" "R" "alice" "pa" false].

(** Two rooms, and "A" host of the first. *)
Definition two_rooms : list Event :=
  [CreateRoom "R1"; CreateRoom "R2"; Connect "A";
   JoinRoom "A" "R1" "alice" "pa" false].

(** Host "A", participant "B" and waiting candidate "C" in room "R". *)
Definition room_with_candidate : list Event :=
  [CreateRoom "R"; Connect "A"; Connect "B"; Connect "C";
   JoinRoom "A" "R" "alice" "pa" false; JoinRoom "B" "R" "bob" "pb" false;
   ApproveParticipant "A" "R" "B"; JoinRoom "C" "R" "carol" "pc" false].

(** "A" is host of "R"; "B" joins with the host flag set. *)
Definition host_takeover : list Event :=
  [CreateRoom "R"; Connect "A"; Connect "B";
   JoinRoom "A" "R" "alice" "pa" false; JoinRoom "B" "R" "bob" "pb" true].

(** "B" waits in "R", the host "A" leaves, and "B" asks to join again. *)
Definition waiting_rejoins : list Event :=
  [CreateRoom "R"; Connect "A"; Connect "B";
   JoinRoom "A" "R" "alice" "pa" false; JoinRoom "B" "R" "bob" "pb" false;
   Disconnect "A"; JoinRoom "B" "R" "bob" "pb" false].

(** "A" was host of "R" and left; "B" is still a participant. *)
Definition host_left_behind : list Event :=
  [CreateRoom "R"; Connect "A"; Connect "B"; Connect "C";
   JoinRoom "A" "R" "alice" "pa" false; JoinRoom "B" "R" "bob" "pb" false;
   ApproveParticipant "A" "R" "B"; Disconnect "A"].

(** "A" is host of "R" and "B" a participant; next, "A" will ask to
    remove itself. *)
Definition host_removes_itself : list Event :=
  [CreateRoom "R"; Connect "A"; Connect "B";
   JoinRoom "A" "R" "alice" "pa" false; JoinRoom "B" "R" "bob" "pb" false;
   ApproveParticipant "A" "R" "B"].

(** "A" is host of "R" and "B" waits for its approval. *)
Definition candidate_waiting : list Event :=
  [CreateRoom "R"; Connect "A"; Connect "B";
   JoinRoom "A" "R" "alice" "pa" false; JoinRoom "B" "R" "bob" "pb" false].

(** One connected socket and no room. *)
Definition lone_socket : list Event := [Connect "A"].

(** * The rest of the server *)

(** ** The read-only HTTP endpoints *)

(** An element of [participants] in the answer of [GET /api/room/:roomId]
    (lines 55-59). *)
Record ParticipantInfo := mkParticipantInfo {
  i_username : string;
  i_joinedAt : N;
  i_isHost : bool
}.

(** The answer of [GET /api/room/:roomId] (lines 50-60). *)
Record RoomInfo := mkRoomInfo {
  i_roomId : RoomId;
  participantCount : nat;
  waitingCount : nat;
  hasHost : bool;
  i_participants : list ParticipantInfo
}.

(** What express answers to [GET /api/room/:roomId]. *)
Inductive HttpAnswer :=
| Ok200 (info : RoomInfo)
| NotFound404
| Error500.

(** [GET /api/room/:roomId] (lines 42-61).  For an inherited name
    [rooms[roomId]] is truthy, line 46 lets it pass, and
    [Object.keys(room.participants)] at line 52 throws: express answers
    500.  The list comes in the order of the keys here, in the order of
    insertion from [Object.values]. *)
Definition get_room (roomId : RoomId) (s : Server) : HttpAnswer :=
  match rooms s !! roomId with
  | None => if inherited_name roomId then Error500 else NotFound404
  | Some room =>
    Ok200
      {| i_roomId := r_id room;
         participantCount := size (participants room);
         waitingCount := size (waitingParticipants room);
         hasHost := bool_decide (is_Some (hostId room));
         i_participants :=
           (λ p, {| i_username := username p; i_joinedAt := joinedAt p;
                    i_isHost := bool_decide (Some (p_id p) = hostId room) |})
             <$> (map_to_list (participants room)).*2 |}
  end.

(** The body of the answer when it is 200. *)
Definition get_room_info (roomId : RoomId) (s : Server) : option RoomInfo :=
  match get_room roomId s with
  | Ok200 info => Some info
  | _ => None
  end.

(** The elements of the lists of [GET /api/debug/rooms] (lines 375-385). *)
Record ParticipantSummary := mkParticipantSummary {
  d_username : string;
  d_peerId : string;
  d_isHost : bool;
  d_joinedAt : N
}.

Record WaitingSummary := mkWaitingSummary {
  dw_username : string;
  dw_peerId : string;
  dw_joinedAt : N
}.

(** The summary of one room (lines 371-386). *)
Record RoomSummary := mkRoomSummary {
  d_participantCount : nat;
  d_waitingCount : nat;
  d_hostId : option SocketId;
  d_participants : list ParticipantSummary;
  d_waitingParticipants : list WaitingSummary
}.

Definition room_summary (room : Room) : RoomSummary :=
  {| d_participantCount := size (participants room);
     d_waitingCount := size (waitingParticipants room);
     d_hostId := hostId room;
     d_participants :=
       (λ p, {| d_username := username p; d_peerId := peerId p;
                d_isHost := isHost p; d_joinedAt := joinedAt p |})
         <$> (map_to_list (participants room)).*2;
     d_waitingParticipants :=
       (λ w, {| dw_username := w_username w; dw_peerId := w_peerId w;
                dw_joinedAt := w_joinedAt w |})
         <$> (map_to_list (waitingParticipants room)).*2 |}.

(** [GET /api/debug/rooms] (lines 367-389). *)
Definition debug_rooms (s : Server) : gmap string RoomSummary :=
  room_summary <$> rooms s.

(** ** What the handlers do to one room *)

(** The room that [POST /api/room] stores (lines 25-36). *)
Definition new_room (roomId : RoomId) (t : N) : Room :=
  {| r_id := roomId; participants := ∅; waitingParticipants := ∅;
     hostId := None; hostPeerId := None; createdAt := t;
     settings := {| requireApproval := true; allowedToJoin := [] |} |}.

(** The record that "join-room" stores for a host (lines 95-104), the one
    it stores for a waiting entrant (lines 117-123), and the one that
    "approve-participant" makes of the latter (lines 159-164). *)
Definition host_record (sid : SocketId) (user peer : string) (t : N)
    : Participant :=
  {| p_id := sid; username := user; peerId := peer; socketId := sid;
     joinedAt := t; audioEnabled := true; videoEnabled := true;
     isHost := true |}.

Definition waiting_record (sid : SocketId) (user peer : string) (t : N)
    : WaitingParticipant :=
  {| w_id := sid; w_username := user; w_peerId := peer; w_socketId := sid;
     w_joinedAt := t |}.

Definition approved_record (w : WaitingParticipant) : Participant :=
  {| p_id := w_id w; username := w_username w; peerId := w_peerId w;
     socketId := w_socketId w; joinedAt := w_joinedAt w;
     audioEnabled := true; videoEnabled := true; isHost := false |}.

(** All the ways in which a handler rewrites a room of the registry. *)
Inductive room_change : Room → Room → Prop :=
| change_none room : room_change room room
| change_host sid user peer t room :
    room_change room
      (set_participants
         (<[sid := host_record sid user peer t]> (participants room))
         (set_host (Some sid) (Some peer) room))
| change_wait sid user peer t room :
    room_change room
      (set_waiting
         (<[sid := waiting_record sid user peer t]> (waitingParticipants room))
         room)
| change_approve pid w room :
    waitingParticipants room !! pid = Some w →
    room_change room
      (set_waiting (delete pid (waitingParticipants room))
         (set_participants (<[pid := approved_record w]> (participants room))
            room))
| change_reject pid room :
    room_change room
      (set_waiting (delete pid (waitingParticipants room)) room)
| change_audio sid p enabled room :
    participants room !! sid = Some p →
    room_change room
      (set_participants (<[sid := set_audio enabled p]> (participants room))
         room)
| change_video sid p enabled room :
    participants room !! sid = Some p →
    room_change room
      (set_participants (<[sid := set_video enabled p]> (participants room))
         room)
| change_remove pid room :
    room_change room
      (set_participants (delete pid (participants room)) room)
| change_disconnect sid room :
    room_change room (disconnect_room sid room)
| change_trans room1 room2 room3 :
    room_change room1 room2 → room_change room2 room3 →
    room_change room1 room3.

(** ** Invariants of the records *)

(** Every record of a room is stored under its own id. *)
Definition keyed (room : Room) : Prop :=
  (∀ k p, participants room !! k = Some p → p_id p = k ∧ socketId p = k)
  ∧ (∀ k w, waitingParticipants room !! k = Some w →
            w_id w = k ∧ w_socketId w = k).

(** [hostPeerId] is vacant whenever [hostId] is. *)
Definition host_peer_cleared (room : Room) : Prop :=
  hostId room = None → hostPeerId room = None.

(** ** Requests that name an entry *)

(** The events that [step] follows to the letter: an approve-participant
    request does not name a property that objects inherit. *)
Definition plain (e : Event) : bool :=
  match e with
  | ApproveParticipant _ _ participantId =>
    negb (inherited_name participantId)
  | _ => true
  end.

(** The states that the server reaches through such events. *)
Inductive reachable_plain : Server → Prop :=
| plain_init : reachable_plain init
| plain_step s e :
    reachable_plain s → admissible s e → plain e = true →
    reachable_plain (step e s).1.


(** * Proofs *)

Ltac unfold_handlers :=
  unfold on_socket, settle, join_room, approve_participant, reject_participant,
    toggle_audio, toggle_video, remove_participant,
    get_waiting_participants, ping.

(** ** Errors for unknown rooms *)

(** A join-room request for a room id that is not in the registry and names
    no inherited property sends the caller the room-error message and
    nothing else, and leaves the whole server state as it was.  (This is C9
    without the names that every object inherits.) *)
Lemma join_unknown_room (s : Server) (sid : SocketId) (roomId : RoomId)
    (user peer : string) (isHostFlag : bool) :
  sid ∈ sockets s →
  rooms s !! roomId = None →
  inherited_name roomId = false →
  step (JoinRoom sid roomId user peer isHostFlag) s
  = (s, [mkDelivery Direct sid (RoomError "Room does not exist")])
  ∧ throws (JoinRoom sid roomId user peer isHostFlag) s = false.
Proof.
  intros Hlive Hnone Hown. simpl. unfold on_socket, settle.
  rewrite decide_True by done. unfold join_room. rewrite Hnone, Hown.
  split; [done|]. by rewrite andb_false_r.
Qed.

Lemma join_unknown_room_witness :
  step (JoinRoom "A" "R" "alice" "pa" false) (connect "A" init)
  = (connect "A" init, [mkDelivery Direct "A" (RoomError "Room does not exist")]).
Proof.
  apply (join_unknown_room (connect "A" init) "A" "R" "alice" "pa" false).
  - vm_compute. reflexivity.
  - vm_compute. reflexivity.
  - vm_compute. reflexivity.
Defined.

(** For a name that every object inherits and that is no room of the
    registry, the test of line 76 lets the request pass and the listener
    throws at line 95, whoever asks and whatever else the request holds. *)
Lemma join_room_inherited (s : Server) (sid : SocketId) (roomId : RoomId)
    (user peer : string) (isHostFlag : bool) :
  rooms s !! roomId = None →
  inherited_name roomId = true →
  join_room sid roomId user peer isHostFlag s = Throws 95.
Proof. intros Hnone Hinh. unfold join_room. by rewrite Hnone, Hinh. Qed.

(** A listener that throws has sent nothing before, and [step] stays in
    the state of the event. *)
Lemma throws_settles (e : Event) (s : Server) :
  throws e s = true → step e s = (s, []).
Proof.
  destruct e; simpl; try discriminate;
    intros [Hlive Hthrown]%andb_true_iff;
    apply bool_decide_eq_true in Hlive;
    unfold on_socket, settle; rewrite decide_True by done;
    by match goal with
       | H : thrown ?o = true |- _ => destruct o
       end.
Qed.

(** C9 fails on the code: "constructor" is no room of the registry, and
    the join-room request of the connected socket "A" for it is not
    answered with room-error: no message is sent at all, and the listener
    throws at line 95, which ends the process. *)
Theorem join_inherited_name_throws :
  reachable (run lone_socket init).1
  ∧ "A" ∈ sockets (run lone_socket init).1
  ∧ rooms (run lone_socket init).1 !! "constructor" = None
  ∧ join_room "A" "constructor" "alice" "pa" false (run lone_socket init).1
    = Throws 95
  ∧ throws (JoinRoom "A" "constructor" "alice" "pa" false)
      (run lone_socket init).1 = true
  ∧ (step (JoinRoom "A" "constructor" "alice" "pa" false)
       (run lone_socket init).1).2 = []
  ∧ ¬ join_unknown_refused (run lone_socket init).1 "A" "constructor"
        "alice" "pa" false.
Proof.
  assert (Hthrow : join_room "A" "constructor" "alice" "pa" false
                     (run lone_socket init).1 = Throws 95).
  { apply join_room_inherited; vm_compute; reflexivity. }
  split.
  { change (reachable (step (Connect "A") init).1).
    apply reachable_step; [apply reachable_init|]. simpl. set_solver. }
  split; [vm_compute; reflexivity|].
  split; [vm_compute; reflexivity|].
  split; [exact Hthrow|].
  split; [vm_compute; reflexivity|].
  split; [vm_compute; reflexivity|].
  intros Hclaim. unfold join_unknown_refused in Hclaim.
  rewrite Hthrow in Hclaim. discriminate Hclaim.
  - vm_compute. reflexivity.
  - vm_compute. reflexivity.
Qed.

(** C10: approve-participant, reject-participant and remove-participant for
    a room id that is not in the registry answer the caller with the error
    of an unauthorized caller and change nothing; a caller who is not the
    host of an existing room gets the same answer, and the state is
    unchanged there too. *)
Theorem host_action_unknown_room (s : Server) (sid : SocketId)
    (roomId : RoomId) (participantId : SocketId) (peer : string) :
  sid ∈ sockets s →
  rooms s !! roomId = None →
  step (ApproveParticipant sid roomId participantId) s
    = (s, [mkDelivery Direct sid (ErrorMsg "Unauthorized")])
  ∧ step (RejectParticipant sid roomId participantId) s
    = (s, [mkDelivery Direct sid (ErrorMsg "Unauthorized")])
  ∧ step (RemoveParticipant sid roomId participantId peer) s
    = (s, [mkDelivery Direct sid (ErrorMsg "Only host can remove participants")])
  ∧ ∀ (s' : Server) (room : Room),
      sid ∈ sockets s' →
      rooms s' !! roomId = Some room →
      hostId room ≠ Some sid →
      step (ApproveParticipant sid roomId participantId) s'
        = (s', (step (ApproveParticipant sid roomId participantId) s).2)
      ∧ step (RejectParticipant sid roomId participantId) s'
        = (s', (step (RejectParticipant sid roomId participantId) s).2)
      ∧ step (RemoveParticipant sid roomId participantId peer) s'
        = (s', (step (RemoveParticipant sid roomId participantId peer) s).2).
Proof.
  intros Hlive Hnone.
  assert (Ha : step (ApproveParticipant sid roomId participantId) s
               = (s, [mkDelivery Direct sid (ErrorMsg "Unauthorized")])).
  { simpl. unfold on_socket, approve_participant.
    rewrite decide_True by done. by rewrite Hnone. }
  assert (Hr : step (RejectParticipant sid roomId participantId) s
               = (s, [mkDelivery Direct sid (ErrorMsg "Unauthorized")])).
  { simpl. unfold on_socket, reject_participant.
    rewrite decide_True by done. by rewrite Hnone. }
  assert (Hm : step (RemoveParticipant sid roomId participantId peer) s
               = (s, [mkDelivery Direct sid
                        (ErrorMsg "Only host can remove participants")])).
  { simpl. unfold on_socket, remove_participant.
    rewrite decide_True by done. by rewrite Hnone. }
  split; [done|]. split; [done|]. split; [done|].
  intros s' room Hlive' Hroom Hhost. rewrite Ha, Hr, Hm. simpl.
  unfold on_socket. rewrite !decide_True by done.
  unfold approve_participant, reject_participant, remove_participant.
  rewrite Hroom. by rewrite !decide_True.
Qed.

Lemma host_action_unknown_room_witness :
  step (ApproveParticipant "A" "R" "B") (connect "A" init)
    = (connect "A" init, [mkDelivery Direct "A" (ErrorMsg "Unauthorized")])
  ∧ step (RejectParticipant "A" "R" "B") (connect "A" init)
    = (connect "A" init, [mkDelivery Direct "A" (ErrorMsg "Unauthorized")])
  ∧ step (RemoveParticipant "A" "R" "B" "pb") (connect "A" init)
    = (connect "A" init,
       [mkDelivery Direct "A" (ErrorMsg "Only host can remove participants")]).
Proof.
  destruct (host_action_unknown_room (connect "A" init) "A" "R" "B" "pb")
    as (Ha & Hr & Hm & _).
  - vm_compute. reflexivity.
  - vm_compute. reflexivity.
  - split; [exact Ha|]. split; [exact Hr|exact Hm].
Defined.

(** ** Basic facts about the handlers *)

Lemma room_empty_true (room : Room) :
  room_empty room = true
  ↔ participants room = ∅ ∧ waitingParticipants room = ∅.
Proof.
  unfold room_empty. rewrite andb_true_iff, !Nat.eqb_eq.
  by rewrite !map_size_empty_iff.
Qed.


Lemma disconnect_room_participants (sid : SocketId) (room : Room) :
  participants (disconnect_room sid room) = delete sid (participants room).
Proof.
  unfold disconnect_room.
  destruct (participants room !! sid) eqn:Hp.
  - case_decide; simpl; by destruct (waitingParticipants room !! sid).
  - destruct (waitingParticipants room !! sid); simpl;
      rewrite delete_id by done; done.
Qed.

Lemma disconnect_room_waiting (sid : SocketId) (room : Room) :
  waitingParticipants (disconnect_room sid room)
  = delete sid (waitingParticipants room).
Proof.
  unfold disconnect_room.
  destruct (participants room !! sid) eqn:Hp.
  - case_decide; simpl;
      destruct (waitingParticipants room !! sid) eqn:Hw; simpl;
      try (rewrite delete_id by done); done.
  - destruct (waitingParticipants room !! sid) eqn:Hw; simpl;
      try (rewrite delete_id by done); done.
Qed.

Lemma disconnect_room_hostId (sid : SocketId) (room : Room) :
  hostId (disconnect_room sid room)
  = if decide (hostId room = Some sid ∧ is_Some (participants room !! sid))
    then None else hostId room.
Proof.
  unfold disconnect_room.
  destruct (participants room !! sid) eqn:Hp.
  - destruct (decide (hostId room = Some sid)); simpl;
      destruct (waitingParticipants room !! sid); simpl;
      case_decide; naive_solver.
  - destruct (waitingParticipants room !! sid); simpl;
      case_decide as Hc; try done; destruct Hc as [_ [? ?]]; done.
Qed.

Lemma disconnect_room_hostPeerId (sid : SocketId) (room : Room) :
  hostPeerId (disconnect_room sid room)
  = if decide (hostId room = Some sid ∧ is_Some (participants room !! sid))
    then None else hostPeerId room.
Proof.
  unfold disconnect_room.
  destruct (participants room !! sid) eqn:Hp.
  - destruct (decide (hostId room = Some sid)); simpl;
      destruct (waitingParticipants room !! sid); simpl;
      case_decide; naive_solver.
  - destruct (waitingParticipants room !! sid); simpl;
      case_decide as Hc; try done; destruct Hc as [_ [? ?]]; done.
Qed.

Lemma disconnect_live (sid : SocketId) (s : Server) :
  sid ∈ sockets s →
  disconnect sid s = on_disconnect sid (socket_leave_all sid s).
Proof. intros. unfold disconnect. by rewrite decide_True. Qed.

Lemma disconnect_dead (sid : SocketId) (s : Server) :
  sid ∉ sockets s → disconnect sid s = (s, []).
Proof. intros. unfold disconnect. by rewrite decide_False. Qed.

Lemma room_sockets_leave (sid : SocketId) (s : Server) (r : RoomId) :
  room_sockets (socket_leave_all sid s) r = room_sockets s r ∖ {[sid]}.
Proof.
  unfold room_sockets, socket_leave_all. simpl. rewrite lookup_fmap.
  destruct (adapter s !! r); simpl; [done | set_solver].
Qed.

Lemma room_sockets_join (sid : SocketId) (roomId r : RoomId) (s : Server) :
  room_sockets (set_adapter (socket_join sid roomId (adapter s)) s) r
  = if decide (r = roomId) then {[sid]} ∪ room_sockets s r
    else room_sockets s r.
Proof.
  unfold room_sockets, socket_join. simpl. case_decide; subst.
  - by rewrite lookup_insert_eq.
  - by rewrite lookup_insert_ne.
Qed.

Lemma on_disconnect_rooms (sid : SocketId) (s : Server) :
  rooms (on_disconnect sid s).1 = disconnect_room sid <$> rooms s.
Proof. done. Qed.

Lemma then_disconnect_fst (pid : SocketId) (r : Server * list Delivery) :
  (then_disconnect pid r).1 = (disconnect pid r.1).1.
Proof. unfold then_disconnect. by destruct (disconnect pid r.1). Qed.

Lemma then_disconnect_snd (pid : SocketId) (r : Server * list Delivery) :
  (then_disconnect pid r).2 = r.2 ++ (disconnect pid r.1).2.
Proof. unfold then_disconnect. by destruct (disconnect pid r.1). Qed.

(** ** The model at work *)

(** The walk through a room's life of the specification: "A" joins the
    empty room without the host flag and is host; "B" waits and "A" gets
    the join request; "A" approves and "B" gets the roster with "A"; "A"
    leaves and "B" gets host-left and stays; "B" leaves, and when the grace
    period is over the room is gone. *)
Example room_life :
  let s1 := (run hosted_room init).1 in
  let r2 := step (JoinRoom "B" "R" "bob" "pb" false) (connect "B" s1) in
  let r3 := step (ApproveParticipant "A" "R" "B") r2.1 in
  let r4 := step (Disconnect "A") r3.1 in
  let r5 := step (Disconnect "B") r4.1 in
  hostId <$> rooms s1 !! "R" = Some (Some "A")
  ∧ received "A" r2.2 = [JoinRequest "B" "bob" "pb"]
  ∧ dom <$> (participants <$> rooms r2.1 !! "R") = Some {["A"]}
  ∧ dom <$> (participants <$> rooms r3.1 !! "R") = Some {["A"; "B"]}
  ∧ (∃ pa, received "B" r3.2
           = [ApprovalGranted; RoomParticipants {["A" := pa]};
              UserJoined "B" "bob" "pb"])
  ∧ received "B" r4.2 = [HostLeft]
  ∧ hostId <$> rooms r4.1 !! "R" = Some None
  ∧ dom <$> (participants <$> rooms r4.1 !! "R") = Some {["B"]}
  ∧ room_empty <$> rooms r5.1 !! "R" = Some true
  ∧ rooms (elapse grace r5.1) !! "R" = None.
Proof.
  repeat split; try (vm_compute; reflexivity).
  eexists. vm_compute. reflexivity.
Qed.

(** ** Consistency of the registry with the socket.io tables *)

Lemma consistent_init : consistent init.
Proof.
  split.
  - intros r x. unfold room_sockets, joined. simpl. rewrite lookup_empty.
    split; [set_solver | by intros (? & ? & ?)].
  - intros r x. unfold room_sockets. simpl. rewrite lookup_empty. set_solver.
  - intros r x (? & ? & ?). done.
Qed.

(** The state in the middle of a handler that has deleted the record of
    [pid] and is about to close its socket: consistent for all others. *)
Lemma disconnect_consistent (pid : SocketId) (s : Server) :
  pid ∈ sockets s →
  (∀ r x, x ≠ pid → x ∈ room_sockets s r ↔ joined s r x) →
  (∀ r x, x ∈ room_sockets s r → x ∈ sockets s) →
  (∀ r x, x ≠ pid → waiting_in s r x → x ∈ sockets s) →
  consistent (disconnect pid s).1.
Proof.
  intros Hlive Hj Hl Hw. rewrite disconnect_live by done.
  assert (Hrooms : ∀ r, rooms (on_disconnect pid (socket_leave_all pid s)).1 !! r
                        = disconnect_room pid <$> rooms s !! r).
  { intros r. rewrite on_disconnect_rooms. simpl. by rewrite lookup_fmap. }
  assert (Hsock : ∀ r, room_sockets (on_disconnect pid (socket_leave_all pid s)).1 r
                       = room_sockets s r ∖ {[pid]}).
  { intros r. by rewrite <- room_sockets_leave. }
  split.
  - intros r x. rewrite Hsock. unfold joined. setoid_rewrite Hrooms.
    rewrite elem_of_difference, not_elem_of_singleton. split.
    + intros [Hin Hne]. apply Hj in Hin as (room & Hr & Hp); [|done].
      exists (disconnect_room pid room). rewrite Hr. split; [done|].
      by rewrite disconnect_room_participants, lookup_delete_ne.
    + intros (room' & Hr & Hp).
      destruct (rooms s !! r) as [room|] eqn:Hroom; simplify_eq/=.
      rewrite disconnect_room_participants in Hp.
      destruct (decide (x = pid)) as [->|Hne].
      { rewrite lookup_delete_eq in Hp. by destruct Hp. }
      rewrite lookup_delete_ne in Hp by done.
      split; [|done]. apply Hj; [done|]. by exists room.
  - intros r x. rewrite Hsock. simpl. intros Hin.
    apply elem_of_difference in Hin as [Hin Hne].
    apply elem_of_difference. split; [by eapply Hl|done].
  - intros r x (room' & Hr & Hp). rewrite Hrooms in Hr.
    destruct (rooms s !! r) as [room|] eqn:Hroom; simplify_eq/=.
    rewrite disconnect_room_waiting in Hp.
    destruct (decide (x = pid)) as [->|Hne].
    { rewrite lookup_delete_eq in Hp. by destruct Hp. }
    rewrite lookup_delete_ne in Hp by done.
    apply elem_of_difference. split; [|set_solver].
    apply (Hw r); [done|]. by exists room.
Qed.

Lemma room_sockets_same (s s' : Server) (r : RoomId) :
  adapter s' = adapter s → room_sockets s' r = room_sockets s r.
Proof. unfold room_sockets. by intros ->. Qed.

Lemma consistent_update (s : Server) (roomId : RoomId) (room room' : Room) :
  consistent s →
  rooms s !! roomId = Some room →
  (∀ x, is_Some (participants room' !! x) ↔ is_Some (participants room !! x)) →
  (∀ x, is_Some (waitingParticipants room' !! x) → x ∈ sockets s) →
  consistent (set_rooms (<[roomId := room']> (rooms s)) s).
Proof.
  intros [Hj Hl Hw] Hroom Hp Hw'. split.
  - intros r x. rewrite (room_sockets_same s) by done. rewrite Hj.
    unfold joined. simpl. destruct (decide (r = roomId)) as [->|Hne].
    + rewrite lookup_insert_eq. split.
      * intros (? & ? & ?); simplify_eq. exists room'. by rewrite Hp.
      * intros (? & ? & ?); simplify_eq. exists room. by rewrite <- Hp.
    + by rewrite lookup_insert_ne.
  - intros r x. apply Hl.
  - intros r x (rm & Hr & Hx). simpl in *.
    destruct (decide (r = roomId)) as [->|Hne].
    + rewrite lookup_insert_eq in Hr. simplify_eq. by apply Hw'.
    + rewrite lookup_insert_ne in Hr by done. apply (Hw r). by exists rm.
Qed.

Lemma consistent_update_join (s : Server) (sid : SocketId) (roomId : RoomId)
    (room room' : Room) :
  consistent s →
  rooms s !! roomId = Some room →
  sid ∈ sockets s →
  (∀ x, is_Some (participants room' !! x)
        ↔ x = sid ∨ is_Some (participants room !! x)) →
  (∀ x, is_Some (waitingParticipants room' !! x) → x ∈ sockets s) →
  consistent (set_rooms (<[roomId := room']> (rooms s))
                (set_adapter (socket_join sid roomId (adapter s)) s)).
Proof.
  intros [Hj Hl Hw] Hroom Hlive Hp Hw'.
  assert (Hs : ∀ r, room_sockets
                      (set_rooms (<[roomId := room']> (rooms s))
                         (set_adapter (socket_join sid roomId (adapter s)) s)) r
                    = if decide (r = roomId) then {[sid]} ∪ room_sockets s r
                      else room_sockets s r).
  { intros r. by rewrite <- room_sockets_join. }
  split.
  - intros r x. rewrite Hs. unfold joined. simpl.
    destruct (decide (r = roomId)) as [->|Hne].
    + rewrite lookup_insert_eq, elem_of_union, elem_of_singleton, Hj. split.
      * intros Hx. exists room'. split; [done|]. apply Hp.
        destruct Hx as [?|(? & ? & ?)]; simplify_eq; auto.
      * intros (? & ? & Hx); simplify_eq. apply Hp in Hx as [?|?]; [by left|].
        right. by exists room.
    + by rewrite lookup_insert_ne, Hj.
  - intros r x. rewrite Hs. simpl. case_decide; [|apply Hl].
    rewrite elem_of_union, elem_of_singleton. intros [->|?]; [done|].
    by eapply Hl.
  - intros r x (rm & Hr & Hx). simpl in *.
    destruct (decide (r = roomId)) as [->|Hne].
    + rewrite lookup_insert_eq in Hr. simplify_eq. by apply Hw'.
    + rewrite lookup_insert_ne in Hr by done. apply (Hw r). by exists rm.
Qed.

Lemma consistent_joined_live (s : Server) (r : RoomId) (room : Room)
    (x : SocketId) :
  consistent s → rooms s !! r = Some room →
  is_Some (participants room !! x) → x ∈ sockets s.
Proof.
  intros [Hj Hl _] Hr Hx. apply (Hl r), Hj. by exists room.
Qed.

Lemma consistent_waiting_live (s : Server) (r : RoomId) (room : Room)
    (x : SocketId) :
  consistent s → rooms s !! r = Some room →
  is_Some (waitingParticipants room !! x) → x ∈ sockets s.
Proof.
  intros [_ _ Hw] Hr Hx. apply (Hw r). by exists room.
Qed.

Lemma disconnect_preserves_consistent (sid : SocketId) (s : Server) :
  consistent s → consistent (disconnect sid s).1.
Proof.
  intros Hc. destruct (decide (sid ∈ sockets s)) as [Hlive|Hdead].
  - destruct Hc as [Hj Hl Hw]. apply disconnect_consistent; eauto.
  - by rewrite disconnect_dead.
Qed.

Lemma create_room_consistent (roomId : RoomId) (s : Server) :
  consistent s → rooms s !! roomId = None →
  consistent (create_room roomId s).
Proof.
  intros [Hj Hl Hw] Hnone. split.
  - intros r x. rewrite (room_sockets_same s) by done. rewrite Hj.
    unfold joined, create_room. simpl.
    destruct (decide (r = roomId)) as [->|Hne].
    + rewrite lookup_insert_eq, Hnone. split.
      * by intros (? & ? & ?).
      * intros (? & ? & Hx); simplify_eq. simpl in Hx.
        rewrite lookup_empty in Hx. by destruct Hx.
    + by rewrite lookup_insert_ne.
  - intros r x. apply Hl.
  - intros r x (rm & Hr & Hx). unfold create_room in Hr. simpl in Hr.
    destruct (decide (r = roomId)) as [->|Hne].
    + rewrite lookup_insert_eq in Hr. simplify_eq. simpl in Hx.
      rewrite lookup_empty in Hx. by destruct Hx.
    + rewrite lookup_insert_ne in Hr by done. apply (Hw r). by exists rm.
Qed.

Lemma connect_consistent (sid : SocketId) (s : Server) :
  consistent s → consistent (connect sid s).
Proof.
  intros [Hj Hl Hw]. split.
  - apply Hj.
  - intros r x Hx. simpl. apply elem_of_union_r. by eapply Hl.
  - intros r x Hx. simpl. apply elem_of_union_r. by eapply Hw.
Qed.

Lemma join_room_consistent (sid : SocketId) (roomId : RoomId)
    (user peer : string) (isHostFlag : bool) (s : Server) :
  consistent s → sid ∈ sockets s →
  consistent (settle (join_room sid roomId user peer isHostFlag) s).1.
Proof.
  intros Hc Hlive. unfold settle, join_room.
  destruct (rooms s !! roomId) as [room|] eqn:Hroom;
    [|by destruct (inherited_name roomId)].
  destruct (isHostFlag || _); simpl.
  - eapply consistent_update_join; eauto; simpl.
    + intros x. destruct (decide (x = sid)) as [->|Hne].
      * rewrite lookup_insert_eq. naive_solver.
      * rewrite lookup_insert_ne by done. naive_solver.
    + intros x. by eapply consistent_waiting_live.
  - eapply consistent_update; eauto; simpl.
    intros x. destruct (decide (x = sid)) as [->|Hne].
    + done.
    + rewrite lookup_insert_ne by done. by eapply consistent_waiting_live.
Qed.

Lemma approve_participant_consistent (sid : SocketId) (roomId : RoomId)
    (participantId : SocketId) (s : Server) :
  consistent s →
  consistent (approve_participant sid roomId participantId s).1.
Proof.
  intros Hc. unfold approve_participant.
  destruct (rooms s !! roomId) as [room|] eqn:Hroom; [|done].
  case_decide; [done|].
  destruct (waitingParticipants room !! participantId) as [w|] eqn:Hw; [|done].
  assert (Hlive : participantId ∈ sockets s).
  { eapply consistent_waiting_live; eauto. }
  simpl. rewrite decide_True by done. simpl.
  eapply (consistent_update_join s participantId roomId room); eauto; simpl.
  - intros x. destruct (decide (x = participantId)) as [->|Hne].
    + rewrite lookup_insert_eq. naive_solver.
    + rewrite lookup_insert_ne by done. naive_solver.
  - intros x. destruct (decide (x = participantId)) as [->|Hne]; [done|].
    rewrite lookup_delete_ne by done. by eapply consistent_waiting_live.
Qed.

Lemma reject_participant_consistent (sid : SocketId) (roomId : RoomId)
    (participantId : SocketId) (s : Server) :
  consistent s →
  consistent (reject_participant sid roomId participantId s).1.
Proof.
  intros Hc. unfold reject_participant.
  destruct (rooms s !! roomId) as [room|] eqn:Hroom; [|done].
  case_decide; [done|].
  destruct (waitingParticipants room !! participantId) as [w|] eqn:Hw; [|done].
  assert (Hc1 : consistent
                  (set_rooms
                     (<[roomId := set_waiting
                          (delete participantId (waitingParticipants room))
                          room]> (rooms s)) s)).
  { eapply consistent_update; eauto; simpl.
    intros x. destruct (decide (x = participantId)) as [->|Hne].
    - rewrite lookup_delete_eq. by intros [? ?].
    - rewrite lookup_delete_ne by done. by eapply consistent_waiting_live. }
  case_decide; [|done].
  rewrite then_disconnect_fst. by apply disconnect_preserves_consistent.
Qed.

Lemma toggle_audio_consistent (sid : SocketId) (roomId : RoomId)
    (peer : string) (enabled : bool) (s : Server) :
  consistent s →
  consistent (settle (toggle_audio sid roomId peer enabled) s).1.
Proof.
  intros Hc. unfold settle, toggle_audio.
  destruct (rooms s !! roomId) as [room|] eqn:Hroom;
    [|by destruct (inherited_name roomId)].
  destruct (participants room !! sid) as [p|] eqn:Hp; [|done].
  eapply consistent_update; eauto; simpl.
  - intros x. destruct (decide (x = sid)) as [->|Hne].
    + rewrite lookup_insert_eq, Hp. naive_solver.
    + by rewrite lookup_insert_ne.
  - intros x. by eapply consistent_waiting_live.
Qed.

Lemma toggle_video_consistent (sid : SocketId) (roomId : RoomId)
    (peer : string) (enabled : bool) (s : Server) :
  consistent s →
  consistent (settle (toggle_video sid roomId peer enabled) s).1.
Proof.
  intros Hc. unfold settle, toggle_video.
  destruct (rooms s !! roomId) as [room|] eqn:Hroom;
    [|by destruct (inherited_name roomId)].
  destruct (participants room !! sid) as [p|] eqn:Hp; [|done].
  eapply consistent_update; eauto; simpl.
  - intros x. destruct (decide (x = sid)) as [->|Hne].
    + rewrite lookup_insert_eq, Hp. naive_solver.
    + by rewrite lookup_insert_ne.
  - intros x. by eapply consistent_waiting_live.
Qed.

Lemma remove_participant_consistent (sid : SocketId) (roomId : RoomId)
    (participantId : SocketId) (peer : string) (s : Server) :
  consistent s →
  consistent (remove_participant sid roomId participantId peer s).1.
Proof.
  intros Hc. unfold remove_participant.
  destruct (rooms s !! roomId) as [room|] eqn:Hroom; [|done].
  case_decide; [done|].
  destruct (participants room !! participantId) as [p|] eqn:Hp.
  2:{ destruct (inherited_name participantId); [|done].
      rewrite then_disconnect_fst. simpl.
      by apply disconnect_preserves_consistent. }
  rewrite then_disconnect_fst. simpl.
  assert (Hlive : participantId ∈ sockets s).
  { eapply consistent_joined_live; eauto. }
  destruct Hc as [Hj Hl Hw]. apply disconnect_consistent; simpl; auto.
  - intros r x Hne. rewrite (room_sockets_same s) by done. rewrite Hj.
    unfold joined. simpl. destruct (decide (r = roomId)) as [->|Hr].
    + rewrite lookup_insert_eq. split.
      * intros (? & ? & ?); simplify_eq. eexists. split; [done|]. simpl.
        by rewrite lookup_delete_ne.
      * intros (? & ? & Hx); simplify_eq. simpl in Hx.
        rewrite lookup_delete_ne in Hx by done. by exists room.
    + by rewrite lookup_insert_ne.
  - intros r x Hne (rm & Hr & Hx). simpl in Hr.
    destruct (decide (r = roomId)) as [->|Hr'].
    + rewrite lookup_insert_eq in Hr. simplify_eq. simpl in Hx.
      apply (Hw roomId). by exists room.
    + rewrite lookup_insert_ne in Hr by done. apply (Hw r). by exists rm.
Qed.

(** What the due timers do to one room: nothing, or delete it when it is
    empty. *)
Lemma reap_lookup (k r : RoomId) (rs : gmap string Room) :
  reap k rs !! r = rs !! r
  ∨ (k = r ∧ reap k rs !! r = None
     ∧ ∃ room, rs !! r = Some room ∧ room_empty room = true).
Proof.
  unfold reap. destruct (rs !! k) as [room|] eqn:Hk; [|by left].
  destruct (room_empty room) eqn:He; [|by left].
  destruct (decide (k = r)) as [->|Hne].
  - right. rewrite lookup_delete_eq. eauto.
  - left. by rewrite lookup_delete_ne.
Qed.

Lemma reap_all_lookup (l : list (N * RoomId)) (r : RoomId)
    (rs : gmap string Room) :
  foldl (λ rs tr, reap tr.2 rs) rs l !! r = rs !! r
  ∨ (foldl (λ rs tr, reap tr.2 rs) rs l !! r = None
     ∧ r ∈ l.*2
     ∧ ∃ room, rs !! r = Some room ∧ room_empty room = true).
Proof.
  revert rs. induction l as [|[d k] l IH]; intros rs; simpl; [by left|].
  destruct (IH (reap k rs)) as [Heq|(Hnone & Hin & room & Hr & He)].
  - rewrite Heq. destruct (reap_lookup k r rs) as [?|(-> & ? & ?)]; [by left|].
    right. split; [done|]. split; [set_solver|done].
  - right. split; [done|]. split; [set_solver|].
    destruct (reap_lookup k r rs) as [Hk|(_ & Hk & _)]; [|congruence].
    exists room. by rewrite <- Hk.
Qed.

Lemma elapse_consistent (dt : N) (s : Server) :
  consistent s → consistent (elapse dt s).
Proof.
  intros [Hj Hl Hw]. split.
  - intros r x. rewrite (room_sockets_same s) by done. rewrite Hj.
    unfold joined, elapse. simpl.
    destruct (reap_all_lookup
                (filter (λ tr, (tr.1 ≤ now s + dt)%N) (timers s)) r (rooms s))
      as [->|(-> & _ & room & Hr & He)]; [done|].
    apply room_empty_true in He as [He _]. split.
    + intros (? & ? & Hx); simplify_eq. rewrite He, lookup_empty in Hx.
      by destruct Hx.
    + by intros (? & ? & ?).
  - intros r x. apply Hl.
  - intros r x (rm & Hr & Hx). unfold elapse in Hr. simpl in Hr.
    destruct (reap_all_lookup
                (filter (λ tr, (tr.1 ≤ now s + dt)%N) (timers s)) r (rooms s))
      as [Heq|(Hnone & _)]; [|congruence].
    apply (Hw r). exists rm. by rewrite <- Heq.
Qed.

Lemma step_consistent (e : Event) (s : Server) :
  consistent s → admissible s e → consistent (step e s).1.
Proof.
  intros Hc Ha. destruct e; simpl in *; unfold on_socket;
    try (case_decide; [|done]).
  - by apply create_room_consistent.
  - by apply connect_consistent.
  - by apply join_room_consistent.
  - by apply approve_participant_consistent.
  - by apply reject_participant_consistent.
  - by apply toggle_audio_consistent.
  - by apply toggle_video_consistent.
  - by apply remove_participant_consistent.
  - unfold get_waiting_participants.
    destruct (rooms s !! roomId); [case_decide|]; done.
  - unfold settle, ping. by destruct ack.
  - by apply disconnect_preserves_consistent.
  - by apply elapse_consistent.
Qed.

Lemma reachable_consistent (s : Server) : reachable s → consistent s.
Proof.
  induction 1 as [|s e _ IH Ha]; [apply consistent_init|].
  by apply step_consistent.
Qed.

Lemma run_cons (e : Event) (evs : list Event) (s : Server) :
  run (e :: evs) s
  = ((run evs (step e s).1).1, (step e s).2 ++ (run evs (step e s).1).2).
Proof. simpl. destruct (step e s) as [s1 o1]. simpl. by destruct (run evs s1). Qed.

Lemma run_app (evs1 evs2 : list Event) (s : Server) :
  (run (evs1 ++ evs2) s).1 = (run evs2 (run evs1 s).1).1.
Proof.
  revert s. induction evs1 as [|e evs1 IH]; intros s; [done|].
  rewrite <- app_comm_cons, !run_cons. simpl. apply IH.
Qed.

Lemma run_reachable (evs : list Event) (s : Server) :
  reachable s → admissible_run evs s = true → reachable (run evs s).1.
Proof.
  revert s. induction evs as [|e evs IH]; intros s Hs Hok; [done|].
  simpl in Hok. apply andb_true_iff in Hok as [Ha Hok].
  apply bool_decide_eq_true in Ha. rewrite run_cons. simpl.
  apply IH; [|done]. by constructor.
Qed.

(** The states reached through plain requests are reachable states. *)
Lemma reachable_plain_reachable (s : Server) :
  reachable_plain s → reachable s.
Proof. induction 1; [constructor|by constructor]. Qed.

Lemma run_reachable_plain (evs : list Event) (s : Server) :
  reachable_plain s → admissible_run evs s = true →
  forallb plain evs = true → reachable_plain (run evs s).1.
Proof.
  revert s. induction evs as [|e evs IH]; intros s Hs Hok Hpl; [done|].
  simpl in Hok. apply andb_true_iff in Hok as [Ha Hok].
  simpl in Hpl. apply andb_true_iff in Hpl as [Hp Hpl].
  apply bool_decide_eq_true in Ha. rewrite run_cons. simpl.
  apply IH; [|done|done]. by constructor.
Qed.

(** ** The clock and the timers *)

Lemma disconnect_now (sid : SocketId) (s : Server) :
  now (disconnect sid s).1 = now s.
Proof. unfold disconnect. by case_decide. Qed.

Lemma disconnect_timers (sid : SocketId) (s : Server) :
  sid ∈ sockets s →
  timers (disconnect sid s).1
  = timers s ++ (map_to_list (rooms s)
                   ≫= λ kr, disconnect_timer s sid kr.1 kr.2).
Proof. intros. by rewrite disconnect_live. Qed.

Lemma disconnect_timers_incl (sid : SocketId) (s : Server) (t : N * RoomId) :
  t ∈ timers s → t ∈ timers (disconnect sid s).1.
Proof.
  intros Ht. unfold disconnect. case_decide; [|done]. simpl.
  apply elem_of_app. by left.
Qed.

Lemma step_now (e : Event) (s : Server) :
  now (step e s).1
  = match e with Elapse dt => (now s + dt)%N | _ => now s end.
Proof.
  destruct e; simpl; try done; unfold_handlers;
    repeat case_match; simplify_eq; simpl;
    rewrite ?then_disconnect_fst, ?disconnect_now; done.
Qed.

Lemma step_timers_incl (e : Event) (s : Server) (t : N * RoomId) :
  (∀ dt, e ≠ Elapse dt) → t ∈ timers s → t ∈ timers (step e s).1.
Proof.
  intros He Ht. destruct e; simpl; try done; unfold_handlers;
    repeat case_match; simplify_eq; simpl;
    rewrite ?then_disconnect_fst; try done;
    try (by apply disconnect_timers_incl).
  by destruct (He dt).
Qed.

Lemma step_now_mono (e : Event) (s : Server) : (now s ≤ now (step e s).1)%N.
Proof. rewrite step_now. destruct e; lia. Qed.

Lemma run_now_mono (evs : list Event) (s : Server) :
  (now s ≤ now (run evs s).1)%N.
Proof.
  revert s. induction evs as [|e evs IH]; intros s; [done|].
  rewrite run_cons. simpl. etrans; [apply (step_now_mono e)|apply IH].
Qed.

(** A timer stays pending as long as the clock has not reached it. *)
Lemma step_timer_pending (e : Event) (s : Server) (d : N) (r : RoomId) :
  (d, r) ∈ timers s → (now (step e s).1 < d)%N → (d, r) ∈ timers (step e s).1.
Proof.
  intros Ht Hnow.
  assert (He : (∃ dt, e = Elapse dt) ∨ ∀ dt, e ≠ Elapse dt).
  { destruct e; try (by right); left; eauto. }
  destruct He as [[dt ->]|Hne].
  - simpl in *. apply list_elem_of_filter. split; [simpl; lia|done].
  - by apply step_timers_incl.
Qed.

Lemma run_timer_pending (evs : list Event) (s : Server) (d : N) (r : RoomId) :
  (d, r) ∈ timers s → (now (run evs s).1 < d)%N → (d, r) ∈ timers (run evs s).1.
Proof.
  revert s. induction evs as [|e evs IH]; intros s Ht Hnow; [done|].
  rewrite run_cons in *. simpl in *. apply IH; [|done].
  apply step_timer_pending; [done|].
  pose proof (run_now_mono evs (step e s).1). lia.
Qed.

(** ** The reaper *)


Lemma reap_all_deletes (l : list (N * RoomId)) (r : RoomId)
    (rs : gmap string Room) :
  r ∈ l.*2 →
  (∀ room, rs !! r = Some room → room_empty room = true) →
  foldl (λ rs tr, reap tr.2 rs) rs l !! r = None.
Proof.
  revert rs. induction l as [|[d k] l IH]; intros rs Hin Hrs; simpl in *.
  { by apply elem_of_nil in Hin. }
  destruct (decide (k = r)) as [->|Hne].
  - assert (Hgone : reap r rs !! r = None).
    { unfold reap. destruct (rs !! r) as [room|] eqn:Hr; [|done].
      rewrite (Hrs room) by done. apply lookup_delete_eq. }
    destruct (reap_all_lookup l r (reap r rs)) as [->|[-> _]]; done.
  - apply IH.
    + apply elem_of_cons in Hin as [?|?]; [congruence|done].
    + intros room Hr. apply Hrs.
      destruct (reap_lookup k r rs) as [<-|(? & _)]; [done|congruence].
Qed.

Lemma elapse_deletes (s : Server) (d dt : N) (r : RoomId) :
  (d, r) ∈ timers s → (d ≤ now s + dt)%N →
  (∀ room, rooms s !! r = Some room → room_empty room = true) →
  rooms (elapse dt s) !! r = None.
Proof.
  intros Ht Hd Hr. unfold elapse. simpl. apply reap_all_deletes; [|done].
  apply list_elem_of_fmap. exists (d, r). split; [done|].
  apply list_elem_of_filter. by split.
Qed.


(** The listener sets a timer for every room that it leaves empty. *)
Lemma disconnect_schedules (sid : SocketId) (s : Server) (r : RoomId)
    (room' : Room) :
  sid ∈ sockets s →
  rooms (disconnect sid s).1 !! r = Some room' →
  room_empty room' = true →
  ((now s + grace)%N, r) ∈ timers (disconnect sid s).1.
Proof.
  intros Hlive Hr He. rewrite disconnect_timers by done.
  rewrite disconnect_live in Hr by done.
  rewrite on_disconnect_rooms, lookup_fmap in Hr. simpl in Hr.
  destruct (rooms s !! r) as [room|] eqn:Hroom; simplify_eq/=.
  apply elem_of_app. right. apply list_elem_of_bind.
  exists (r, room). split; [|by apply elem_of_map_to_list].
  unfold disconnect_timer. simpl. rewrite He. by apply list_elem_of_singleton.
Qed.







(** ** Rooms that nobody joined *)

Lemma disconnect_room_kept (sid : SocketId) (s : Server) (r : RoomId) :
  is_Some (rooms s !! r) → is_Some (rooms (disconnect sid s).1 !! r).
Proof.
  intros [room Hr]. unfold disconnect. case_decide; [|by exists room].
  rewrite on_disconnect_rooms, lookup_fmap. simpl. rewrite Hr. by eexists.
Qed.

Lemma insert_room_kept (rs : gmap string Room) (k r : RoomId) (room : Room) :
  is_Some (rs !! r) → is_Some (<[k := room]> rs !! r).
Proof.
  intros Hr. destruct (decide (k = r)) as [->|Hne].
  - rewrite lookup_insert_eq. by eexists.
  - by rewrite lookup_insert_ne.
Qed.

(** Only the timer takes a room out of the registry. *)
Lemma step_room_kept (e : Event) (s : Server) (r : RoomId) :
  (∀ dt, e ≠ Elapse dt) →
  is_Some (rooms s !! r) → is_Some (rooms (step e s).1 !! r).
Proof.
  intros He Hr. destruct e; simpl; try done; unfold_handlers;
    try (by apply insert_room_kept);
    try (by apply disconnect_room_kept);
    repeat case_match; simplify_eq; simpl; rewrite ?then_disconnect_fst; simpl;
    try done;
    try (by apply insert_room_kept);
    try (by apply disconnect_room_kept);
    try (by apply disconnect_room_kept, insert_room_kept).
  by destruct (He dt).
Qed.

Lemma step_timers_same (e : Event) (s : Server) :
  closes_socket e = false → (∀ dt, e ≠ Elapse dt) →
  timers (step e s).1 = timers s.
Proof.
  intros Hc He. destruct e; simpl in *; try done; unfold_handlers;
    repeat case_match; simplify_eq; simpl; try done.
  by destruct (He dt).
Qed.

Lemma elapse_room_kept (dt : N) (s : Server) (r : RoomId) :
  (∀ d, (d, r) ∉ timers s) →
  is_Some (rooms s !! r) → is_Some (rooms (elapse dt s) !! r).
Proof.
  intros Ht Hr. unfold elapse. simpl.
  destruct (reap_all_lookup
              (filter (λ tr, (tr.1 ≤ now s + dt)%N) (timers s)) r (rooms s))
    as [->|(_ & Hin & _)]; [done|].
  apply list_elem_of_fmap in Hin as ([d r'] & -> & Hin).
  apply list_elem_of_filter in Hin as [_ Hin]. by destruct (Ht d).
Qed.

Lemma run_room_kept (evs : list Event) (s : Server) (r : RoomId) :
  forallb (λ e, negb (closes_socket e)) evs = true →
  (∀ d, (d, r) ∉ timers s) →
  is_Some (rooms s !! r) →
  is_Some (rooms (run evs s).1 !! r).
Proof.
  revert s. induction evs as [|e evs IH]; intros s Hev Ht Hr; [done|].
  simpl in Hev. apply andb_true_iff in Hev as [He Hev].
  apply negb_true_iff in He. rewrite run_cons. simpl.
  assert (Hel : (∃ dt, e = Elapse dt) ∨ ∀ dt, e ≠ Elapse dt).
  { destruct e; try (by right); left; eauto. }
  apply IH; [done| |].
  - destruct Hel as [[dt ->]|Hne].
    + intros d Hin. simpl in Hin. apply list_elem_of_filter in Hin as [_ Hin].
      by destruct (Ht d).
    + by rewrite step_timers_same.
  - destruct Hel as [[dt ->]|Hne].
    + by apply elapse_room_kept.
    + by apply step_room_kept.
Qed.

(** The listener leaves an empty room empty. *)
Lemma disconnect_room_empty (sid : SocketId) (room : Room) :
  room_empty room = true → disconnect_room sid room = room.
Proof.
  intros [Hp Hw]%room_empty_true. unfold disconnect_room.
  by rewrite Hp, lookup_empty, Hw, lookup_empty.
Qed.

(** C6, as amended: a room that is empty and has no deletion check pending
    (as it is when it has just been created) stays in the registry through
    every sequence of events in which the server closes no socket, whatever
    else happens.  But the "disconnect" listener of any connected socket,
    also of one that was never in the room, leaves the room as it is and
    sets a deletion check for it; if the room is still empty when the clock
    reaches the due time, [grace] later, the check deletes it. *)
Theorem never_joined_room (s : Server) (roomId : RoomId) (room : Room) :
  rooms s !! roomId = Some room →
  room_empty room = true →
  (∀ d, (d, roomId) ∉ timers s) →
  (∀ evs : list Event,
     forallb (λ e, negb (closes_socket e)) evs = true →
     is_Some (rooms (run evs s).1 !! roomId))
  ∧ (∀ sid : SocketId,
       sid ∈ sockets s →
       rooms (step (Disconnect sid) s).1 !! roomId = Some room
       ∧ ((now s + grace)%N, roomId) ∈ timers (step (Disconnect sid) s).1
       ∧ ∀ (evs : list Event) (dt : N),
           (now (run evs (step (Disconnect sid) s).1).1 < now s + grace)%N →
           (now s + grace ≤ now (run evs (step (Disconnect sid) s).1).1 + dt)%N →
           (∀ rm, rooms (run evs (step (Disconnect sid) s).1).1 !! roomId
                    = Some rm → room_empty rm = true) →
           rooms (elapse dt (run evs (step (Disconnect sid) s).1).1) !! roomId
           = None).
Proof.
  intros Hr He Ht. split.
  - intros evs Hevs. by apply run_room_kept.
  - intros sid Hlive. simpl.
    assert (Hr' : rooms (disconnect sid s).1 !! roomId = Some room).
    { rewrite disconnect_live by done.
      rewrite on_disconnect_rooms, lookup_fmap.
      change (rooms (socket_leave_all sid s)) with (rooms s). rewrite Hr.
      cbn [fmap option_fmap option_map].
      by rewrite (disconnect_room_empty sid room He). }
    assert (Hset : ((now s + grace)%N, roomId) ∈ timers (disconnect sid s).1).
    { by eapply disconnect_schedules. }
    split; [done|]. split; [done|].
    intros evs dt Hbefore Hdue Hempty.
    eapply elapse_deletes; [|exact Hdue|exact Hempty].
    by apply run_timer_pending.
Qed.

Lemma never_joined_room_witness :
  is_Some (rooms (run [Connect "A"; Elapse grace]
                    (run [CreateRoom "R"] init).1).1 !! "R")
  ∧ rooms (elapse grace
             (run []
                (step (Disconnect "A")
                   (run [CreateRoom "R"; Connect "A"] init).1).1).1)
      !! "R" = None.
Proof.
  split.
  - edestruct (never_joined_room (run [CreateRoom "R"] init).1 "R")
      as [Hkept _].
    + vm_compute. reflexivity.
    + vm_compute. reflexivity.
    + intros d. vm_compute. intros Hin. inversion Hin.
    + apply Hkept. vm_compute. reflexivity.
  - edestruct (never_joined_room (run [CreateRoom "R"; Connect "A"] init).1 "R")
      as [_ Hgone].
    + vm_compute. reflexivity.
    + vm_compute. reflexivity.
    + intros d. vm_compute. intros Hin. inversion Hin.
    + destruct (Hgone "A") as (_ & _ & Hdel); [vm_compute; reflexivity|].
      apply Hdel.
      * vm_compute. reflexivity.
      * vm_compute. discriminate.
      * intros rm. vm_compute. intros [= <-]. reflexivity.
Defined.

(** C6, as stated, fails: the room "R" is created, a connection that
    never joins it comes and goes, and sixty seconds later the room is
    gone. *)
Lemma never_joined_room_persists_fails : ¬ never_joined_room_persists.
Proof.
  intros Hclaim.
  destruct (Hclaim [] [Connect "A"; Disconnect "A"; Elapse grace] "R")
    as [room Hroom].
  - vm_compute. reflexivity.
  - vm_compute. reflexivity.
  - vm_compute in Hroom. discriminate.
Qed.

(** ** One room per connection? *)

Lemma presence_within_refl (s : Server) : presence_within None s s.
Proof. intros r room' c Hr Hc. left. by exists room'. Qed.

Lemma presence_within_trans (extra : option (SocketId * RoomId))
    (s1 s2 s3 : Server) :
  presence_within extra s1 s2 → presence_within None s2 s3 →
  presence_within extra s1 s3.
Proof.
  intros H12 H23 r room3 c Hr Hc.
  destruct (H23 r room3 c Hr Hc) as [(room2 & Hr2 & Hc2)|?]; [|done].
  by apply (H12 r room2 c).
Qed.

Lemma presence_within_update (extra : option (SocketId * RoomId))
    (s : Server) (k : RoomId) (room room2 : Room)
    (s' : Server) :
  rooms s' = <[k := room2]> (rooms s) →
  rooms s !! k = Some room →
  (∀ c, present c room2 → present c room ∨ extra = Some (c, k)) →
  presence_within extra s s'.
Proof.
  intros Hs' Hk Hp r room' c Hr Hc. rewrite Hs' in Hr.
  destruct (decide (k = r)) as [->|Hne].
  - rewrite lookup_insert_eq in Hr. simplify_eq.
    destruct (Hp c Hc) as [?|?]; [|by right]. left. by exists room.
  - rewrite lookup_insert_ne in Hr by done. left. by exists room'.
Qed.

Lemma present_disconnect_room (sid c : SocketId) (room : Room) :
  present c (disconnect_room sid room) ↔ c ≠ sid ∧ present c room.
Proof.
  unfold present.
  rewrite disconnect_room_participants, disconnect_room_waiting.
  rewrite !dom_delete_L. set_solver.
Qed.

Lemma disconnect_presence (sid : SocketId) (s : Server) :
  presence_within None s (disconnect sid s).1.
Proof.
  unfold disconnect. case_decide; [|apply presence_within_refl].
  intros r room' c Hr Hc. rewrite on_disconnect_rooms, lookup_fmap in Hr.
  change (rooms (socket_leave_all sid s)) with (rooms s) in Hr.
  destruct (rooms s !! r) as [room|] eqn:Hroom; simplify_eq/=.
  apply present_disconnect_room in Hc as [_ Hc]. left. by exists room.
Qed.

Lemma present_insert_participant (c x : SocketId) (p : Participant)
    (room : Room) :
  present c (set_participants (<[x := p]> (participants room)) room)
  ↔ c = x ∨ present c room.
Proof. unfold present. simpl. rewrite dom_insert_L. set_solver. Qed.

Lemma present_insert_waiting (c x : SocketId) (w : WaitingParticipant)
    (room : Room) :
  present c (set_waiting (<[x := w]> (waitingParticipants room)) room)
  ↔ c = x ∨ present c room.
Proof. unfold present. simpl. rewrite dom_insert_L. set_solver. Qed.

Lemma elapse_presence (dt : N) (s : Server) :
  presence_within None s (elapse dt s).
Proof.
  intros r room' c Hr Hc. left. exists room'. split; [|done].
  unfold elapse in Hr. simpl in Hr.
  destruct (reap_all_lookup
              (filter (λ tr, (tr.1 ≤ now s + dt)%N) (timers s)) r (rooms s))
    as [Heq|[Hnone _]]; congruence.
Qed.

(** Who is where after an event: nobody new, but the caller of join-room
    in the room it asked for. *)
Lemma step_presence (e : Event) (s : Server) :
  presence_within
    (match e with
     | JoinRoom sid roomId _ _ _ => Some (sid, roomId)
     | _ => None
     end) s (step e s).1.
Proof.
  destruct e; simpl; unfold on_socket;
    try (case_decide; [|intros r room' c Hr Hc; left; by exists room']).
  - (* create *)
    intros r room' c Hr Hc. unfold create_room in Hr. simpl in Hr.
    destruct (decide (roomId = r)) as [->|Hne].
    + rewrite lookup_insert_eq in Hr. simplify_eq.
      unfold present in Hc. simpl in Hc. set_solver.
    + rewrite lookup_insert_ne in Hr by done. left. by exists room'.
  - intros r room' c Hr Hc. left. by exists room'.
  - (* join *)
    unfold settle, join_room.
    destruct (rooms s !! roomId) as [room|] eqn:Hroom;
      [|destruct (inherited_name roomId); intros r room' c Hr Hc; left; by exists room'].
    destruct (isHostFlag || _); simpl.
    + eapply presence_within_update; [done|exact Hroom|].
      intros c Hc. destruct (decide (c = sid)) as [->|Hne]; [by right|left].
      revert Hc. unfold present. simpl. rewrite dom_insert_L. set_solver.
    + eapply presence_within_update; [done|exact Hroom|].
      intros c Hc. destruct (decide (c = sid)) as [->|Hne]; [by right|left].
      revert Hc. unfold present. simpl. rewrite dom_insert_L. set_solver.
  - (* approve *)
    unfold approve_participant.
    destruct (rooms s !! roomId) as [room|] eqn:Hroom;
      [|apply presence_within_refl].
    case_decide; [apply presence_within_refl|].
    destruct (waitingParticipants room !! participantId) as [w|] eqn:Hw;
      [|apply presence_within_refl].
    assert (Hin : participantId ∈ dom (waitingParticipants room)).
    { apply elem_of_dom. by eexists. }
    simpl. case_decide; simpl;
      (eapply presence_within_update; [done|exact Hroom|]);
      intros c; unfold present; simpl;
      rewrite dom_insert_L, dom_delete_L; set_solver.
  - (* reject *)
    unfold reject_participant.
    destruct (rooms s !! roomId) as [room|] eqn:Hroom;
      [|apply presence_within_refl].
    case_decide; [apply presence_within_refl|].
    destruct (waitingParticipants room !! participantId) as [w|] eqn:Hw;
      [|apply presence_within_refl].
    assert (H1 : presence_within None s
                   (set_rooms
                      (<[roomId := set_waiting
                           (delete participantId (waitingParticipants room))
                           room]> (rooms s)) s)).
    { eapply presence_within_update; [done|exact Hroom|].
      intros c; unfold present; simpl. rewrite dom_delete_L. set_solver. }
    simpl. case_decide; [|done]. rewrite then_disconnect_fst.
    eapply presence_within_trans; [exact H1|apply disconnect_presence].
  - (* toggle-audio *)
    unfold settle, toggle_audio.
    destruct (rooms s !! roomId) as [room|] eqn:Hroom;
      [|destruct (inherited_name roomId); apply presence_within_refl].
    destruct (participants room !! sid) as [p|] eqn:Hp;
      [|apply presence_within_refl].
    eapply presence_within_update; [done|exact Hroom|].
    intros c Hc. apply present_insert_participant in Hc as [->|Hc]; auto.
    left. left. apply elem_of_dom. by eexists.
  - (* toggle-video *)
    unfold settle, toggle_video.
    destruct (rooms s !! roomId) as [room|] eqn:Hroom;
      [|destruct (inherited_name roomId); apply presence_within_refl].
    destruct (participants room !! sid) as [p|] eqn:Hp;
      [|apply presence_within_refl].
    eapply presence_within_update; [done|exact Hroom|].
    intros c Hc. apply present_insert_participant in Hc as [->|Hc]; auto.
    left. left. apply elem_of_dom. by eexists.
  - (* remove *)
    unfold remove_participant.
    destruct (rooms s !! roomId) as [room|] eqn:Hroom;
      [|apply presence_within_refl].
    case_decide; [apply presence_within_refl|].
    destruct (participants room !! participantId) as [p|] eqn:Hp.
    2:{ destruct (inherited_name participantId);
          [|apply presence_within_refl].
        rewrite then_disconnect_fst. apply disconnect_presence. }
    rewrite then_disconnect_fst.
    eapply presence_within_trans; [|apply disconnect_presence].
    eapply presence_within_update; [done|exact Hroom|].
    intros c; unfold present; simpl. rewrite dom_delete_L. set_solver.
  - (* get-waiting *)
    unfold get_waiting_participants.
    destruct (rooms s !! roomId); [case_decide|]; apply presence_within_refl.
  - unfold settle, ping. destruct ack; apply presence_within_refl.
  - apply disconnect_presence.
  - apply elapse_presence.
Qed.

(** C5, as amended: that every connection is joined or waiting in at most
    one room is preserved by every event, provided that a join-room request
    comes from a connection that is in no other room; the handler itself
    does not look at the other rooms. *)
Theorem single_room_preserved (s : Server) (e : Event) :
  single_room s → joins_own_room s e → single_room (step e s).1.
Proof.
  intros Hs Hj c r1 r2 room1 room2 Hr1 Hr2 Hc1 Hc2.
  pose proof (step_presence e s) as Hp.
  destruct (Hp r1 room1 c Hr1 Hc1) as [(rm1 & Hrm1 & Hp1)|He1],
    (Hp r2 room2 c Hr2 Hc2) as [(rm2 & Hrm2 & Hp2)|He2].
  - by apply (Hs c r1 r2 rm1 rm2).
  - destruct e; simplify_eq. simpl in Hj. by apply (Hj r1 rm1).
  - destruct e; simplify_eq. simpl in Hj. symmetry. by apply (Hj r2 rm2).
  - destruct e; simplify_eq. done.
Qed.

Lemma single_room_init : single_room init.
Proof.
  intros c r1 r2 room1 room2 Hr1. simpl in Hr1.
  by rewrite lookup_empty in Hr1.
Qed.

Lemma single_room_preserved_witness :
  single_room
    (step (JoinRoom "A" "R" "alice" "pa" false)
       (step (Connect "A") (step (CreateRoom "R") init).1).1).1.
Proof.
  apply (single_room_preserved
           (step (Connect "A") (step (CreateRoom "R") init).1).1
           (JoinRoom "A" "R" "alice" "pa" false)).
  - apply (single_room_preserved (step (CreateRoom "R") init).1 (Connect "A")).
    + apply (single_room_preserved init (CreateRoom "R")).
      * exact single_room_init.
      * simpl. exact I.
    + simpl. exact I.
  - simpl. intros r room Hr _. destruct (decide (r = "R")) as [->|Hne].
    + reflexivity.
    + rewrite lookup_insert_ne, lookup_empty in Hr by done. discriminate.
Defined.

(** C5, as stated, fails: connection "A" joins room "R1" and then room
    "R2", and is a participant of both. *)
Lemma single_room_always_fails : ¬ single_room_always.
Proof.
  intros Hclaim.
  assert (Hreach : reachable
            (run (two_rooms ++ [JoinRoom "A" "R2" "alice" "pa" false]) init).1).
  { apply run_reachable; [apply reachable_init|vm_compute; reflexivity]. }
  apply Hclaim in Hreach.
  assert (Heq : "R1" = "R2"); [|discriminate].
  eapply (Hreach "A" "R1" "R2").
  - vm_compute. reflexivity.
  - vm_compute. reflexivity.
  - left. apply elem_of_dom. vm_compute. by eexists.
  - left. apply elem_of_dom. vm_compute. by eexists.
Qed.

(** ** Who receives a broadcast *)

Lemma filter_broadcast (c : Channel) (m : Msg) (l : list string)
    (P : Delivery → Prop) `{!∀ d, Decision (P d)} (x : SocketId) :
  NoDup l →
  (∀ y, P (mkDelivery c y m) ↔ y = x) →
  filter P ((λ y, mkDelivery c y m) <$> l)
  = if decide (x ∈ l) then [mkDelivery c x m] else [].
Proof.
  intros Hnd HP. induction l as [|y l IH].
  { destruct (decide (x ∈ [])) as [Hin|]; [|done]. by apply elem_of_nil in Hin. }
  apply NoDup_cons in Hnd as [Hy Hnd]. specialize (IH Hnd).
  rewrite fmap_cons. destruct (decide (y = x)) as [->|Hne].
  - rewrite filter_cons_True by by apply HP.
    rewrite IH. destruct (decide (x ∈ l)); [done|].
    destruct (decide (x ∈ x :: l)) as [|Hout]; [done|].
    destruct Hout. apply elem_of_cons. by left.
  - rewrite filter_cons_False by (by rewrite HP).
    rewrite IH. destruct (decide (x ∈ l)) as [Hin|Hout],
      (decide (x ∈ y :: l)) as [Hin'|Hout']; try done.
    + destruct Hout'. apply elem_of_cons. by right.
    + apply elem_of_cons in Hin' as [?|?]; congruence.
Qed.

Lemma received_broadcast (c : Channel) (m : Msg) (X : gset string)
    (x : SocketId) :
  received x ((λ y, mkDelivery c y m) <$> elements X)
  = if decide (x ∈ X) then [m] else [].
Proof.
  unfold received.
  rewrite (filter_broadcast c m (elements X) _ x);
    [|apply NoDup_elements|done].
  destruct (decide (x ∈ elements X)) as [Hin|Hin];
    rewrite elem_of_elements in Hin.
  - by rewrite decide_True.
  - by rewrite decide_False.
Qed.

Lemma received_in_broadcast (r : RoomId) (m : Msg) (X : gset string)
    (x : SocketId) :
  received_in r x ((λ y, mkDelivery (InRoom r) y m) <$> elements X)
  = if decide (x ∈ X) then [m] else [].
Proof.
  unfold received_in.
  rewrite (filter_broadcast (InRoom r) m (elements X) _ x);
    [|apply NoDup_elements|simpl; naive_solver].
  destruct (decide (x ∈ elements X)) as [Hin|Hin];
    rewrite elem_of_elements in Hin.
  - by rewrite decide_True.
  - by rewrite decide_False.
Qed.


Lemma received_cons (x : SocketId) (d : Delivery) (o : list Delivery) :
  received x (d :: o)
  = if decide (recipient d = x) then payload d :: received x o
    else received x o.
Proof.
  unfold received. rewrite filter_cons. by case_decide.
Qed.

Lemma filter_lookup_ne_delete (pid : SocketId) (ps : gmap string Participant) :
  filter (λ kv : string * Participant, kv.1 ≠ pid) ps = delete pid ps.
Proof.
  apply map_eq. intros i. destruct (decide (i = pid)) as [->|Hne].
  - rewrite lookup_delete_eq. apply map_lookup_filter_None. right.
    intros p _. simpl. by intros [].
  - rewrite lookup_delete_ne by done.
    destruct (ps !! i) as [p|] eqn:Hi.
    + by apply map_lookup_filter_Some.
    + apply map_lookup_filter_None. by left.
Qed.

(** ** Approval *)

(** What an approval does send: when the host approves a waiting candidate,
    the candidate becomes a participant and receives one room-participants
    message, whose roster is the participants of the room without the
    candidate; every participant of the room other than the candidate and
    the approving host receives exactly one user-joined message with the
    candidate's id, username and peerId; the approving host, being the
    sender of the broadcast, receives none.  (This is C3 without the
    host.) *)
Lemma approve_notifies_others (s : Server) (host : SocketId)
    (roomId : RoomId) (participantId : SocketId) (room : Room)
    (w : WaitingParticipant) :
  reachable s →
  host ∈ sockets s →
  rooms s !! roomId = Some room →
  hostId room = Some host →
  waitingParticipants room !! participantId = Some w →
  ∃ room',
    rooms (step (ApproveParticipant host roomId participantId) s).1 !! roomId
      = Some room'
    ∧ dom (participants room') = {[participantId]} ∪ dom (participants room)
    ∧ waitingParticipants room'
      = delete participantId (waitingParticipants room)
    ∧ filter (λ m, is_room_participants m)
        (received participantId
           (step (ApproveParticipant host roomId participantId) s).2)
      = [RoomParticipants (delete participantId (participants room'))]
    ∧ (∀ x, is_Some (participants room' !! x) →
            x ≠ participantId → x ≠ host →
        filter (λ m, is_user_joined m)
          (received x (step (ApproveParticipant host roomId participantId) s).2)
        = [UserJoined participantId (w_username w) (w_peerId w)])
    ∧ filter (λ m, is_user_joined m)
        (received host (step (ApproveParticipant host roomId participantId) s).2)
      = [].
Proof.
  intros Hreach Hhost Hroom Hh Hw.
  pose proof (reachable_consistent s Hreach) as Hc.
  assert (Hlive : participantId ∈ sockets s).
  { eapply consistent_waiting_live; eauto. }
  simpl. unfold on_socket, approve_participant.
  rewrite decide_True by done. rewrite Hroom.
  rewrite decide_False by (by intros Hne; apply Hne).
  rewrite Hw. simpl. rewrite decide_True by done.
  rewrite filter_lookup_ne_delete. simpl.
  eexists. split; [by rewrite lookup_insert_eq|]. simpl.
  split; [by rewrite dom_insert_L|]. split; [done|].
  unfold socket_emit, socket_to_room.
  set (bc := room_sockets _ roomId ∖ {[host]}).
  assert (Hbc : ∀ x, x ∈ bc
                     ↔ (x = participantId ∨ is_Some (participants room !! x))
                       ∧ x ≠ host).
  { intros x. unfold bc.
    rewrite elem_of_difference, not_elem_of_singleton.
    rewrite (room_sockets_join participantId roomId roomId
               (set_rooms _ s)).
    rewrite decide_True by done.
    rewrite elem_of_union, elem_of_singleton.
    rewrite (room_sockets_same s) by done.
    rewrite (adapter_joined s Hc). unfold joined.
    split; intros [Hx ?]; (split; [|done]).
    - destruct Hx as [?|(? & ? & ?)]; simplify_eq; auto.
    - destruct Hx as [?|?]; [by left|right]. by exists room. }
  split; [|split].
  - rewrite !received_cons. simpl. rewrite !decide_True by done.
    rewrite received_broadcast. rewrite !filter_cons. simpl.
    by destruct (decide (participantId ∈ bc)).
  - intros x Hx Hne Hnh. rewrite !received_cons. simpl.
    rewrite !decide_False by done. rewrite received_broadcast.
    rewrite decide_True; [done|]. apply Hbc. split; [|done]. right.
    by rewrite lookup_insert_ne in Hx.
  - rewrite !received_cons. simpl. rewrite received_broadcast.
    rewrite (decide_False (P := host ∈ bc)) by (rewrite Hbc; naive_solver).
    by repeat case_decide.
Qed.

Lemma approve_notifies_others_witness :
  filter (λ m, is_user_joined m)
    (received "B"
       (step (ApproveParticipant "A" "R" "C")
          (run room_with_candidate init).1).2)
  = [UserJoined "C" "carol" "pc"]
  ∧ filter (λ m, is_user_joined m)
      (received "A"
         (step (ApproveParticipant "A" "R" "C")
            (run room_with_candidate init).1).2)
    = [].
Proof.
  edestruct (approve_notifies_others (run room_with_candidate init).1
               "A" "R" "C")
    as (room' & Hroom' & _ & _ & _ & Hothers & Hhost).
  - apply run_reachable; [apply reachable_init|vm_compute; reflexivity].
  - vm_compute. reflexivity.
  - vm_compute. reflexivity.
  - vm_compute. reflexivity.
  - vm_compute. reflexivity.
  - split; [|exact Hhost]. apply (Hothers "B").
    + vm_compute in Hroom'. injection Hroom' as <-.
      vm_compute. eexists. reflexivity.
    + discriminate.
    + discriminate.
Defined.

(** C3 fails on the code: "A" is the host and the only participant of "R",
    and approves "B", who is waiting.  The broadcast of line 189 leaves
    from the socket of "A": the host, the one participant that was there,
    receives nothing at all, and the user-joined message goes to "B", the
    new user itself, whom line 171 has just put in the socket.io room. *)
Theorem approve_skips_host :
  reachable (run candidate_waiting init).1
  ∧ received "A"
      (step (ApproveParticipant "A" "R" "B") (run candidate_waiting init).1).2
    = []
  ∧ received "B"
      (step (ApproveParticipant "A" "R" "B") (run candidate_waiting init).1).2
    = [ApprovalGranted;
       RoomParticipants (<["A" := host_record "A" "alice" "pa" 0]> ∅);
       UserJoined "B" "bob" "pb"]
  ∧ ¬ approve_notifies_all (run candidate_waiting init).1 "A" "R" "B".
Proof.
  split.
  { apply run_reachable; [apply reachable_init|vm_compute; reflexivity]. }
  split; [vm_compute; reflexivity|].
  split; [vm_compute; reflexivity|].
  intros Hclaim.
  edestruct Hclaim as (room' & Hroom' & _ & Hall).
  - vm_compute. reflexivity.
  - vm_compute. reflexivity.
  - vm_compute. reflexivity.
  - vm_compute. reflexivity.
  - vm_compute. reflexivity.
  - vm_compute in Hroom'. injection Hroom' as <-.
    assert (Hhost : filter (λ m, is_user_joined m)
              (received "A"
                 (step (ApproveParticipant "A" "R" "B")
                    (run candidate_waiting init).1).2)
            = [UserJoined "B" "bob" "pb"]).
    { apply Hall; [|discriminate]. vm_compute. eexists. reflexivity. }
    vm_compute in Hhost. discriminate.
Qed.

(** ** The host of a room *)

(** C1 fails on the code: after [host_takeover] the room has two
    participants with [isHost = true], "A" and "B", and [hostId] is "B";
    the state is reachable and [host_invariant] does not hold in it. *)
Theorem host_takeover_two_hosts :
  reachable (run host_takeover init).1
  ∧ ∃ room,
      rooms (run host_takeover init).1 !! "R" = Some room
      ∧ hostId room = Some "B"
      ∧ isHost <$> participants room !! "A" = Some true
      ∧ isHost <$> participants room !! "B" = Some true
      ∧ ¬ host_invariant room.
Proof.
  split.
  { apply run_reachable; [apply reachable_init|vm_compute; reflexivity]. }
  eexists. split; [vm_compute; reflexivity|].
  split; [reflexivity|]. split; [vm_compute; reflexivity|].
  split; [vm_compute; reflexivity|].
  intros (Huniq & _ & _).
  assert (Heq : "A" = "B"); [|discriminate].
  eapply Huniq; vm_compute; reflexivity.
Qed.

(** ** Joined and waiting at once *)

(** C2 fails on the code: after [waiting_rejoins], "B" is admitted as host
    and is still in [waitingParticipants]; the state is reachable and the
    two key sets are not disjoint. *)
Theorem waiting_rejoins_in_both_sets :
  reachable (run waiting_rejoins init).1
  ∧ ∃ room,
      rooms (run waiting_rejoins init).1 !! "R" = Some room
      ∧ is_Some (participants room !! "B")
      ∧ is_Some (waitingParticipants room !! "B")
      ∧ ¬ disjoint_sets room.
Proof.
  split.
  { apply run_reachable; [apply reachable_init|vm_compute; reflexivity]. }
  eexists. split; [vm_compute; reflexivity|].
  split; [vm_compute; eexists; reflexivity|].
  split; [vm_compute; eexists; reflexivity|].
  intros Hdis. apply (Hdis "B"). split; vm_compute; eexists; reflexivity.
Qed.

(** ** Admission as host *)

(** C4 fails on the code: after [host_left_behind] the room has no host, so
    "C" is admitted as host; "B" is a participant of the room at that
    moment, and the roster sent to "C" is empty all the same. *)
Theorem new_host_gets_empty_roster :
  reachable (run host_left_behind init).1
  ∧ (∃ room,
       rooms (run host_left_behind init).1 !! "R" = Some room
       ∧ hostId room = None
       ∧ is_Some (participants room !! "B"))
  ∧ received "C"
      (step (JoinRoom "C" "R" "carol" "pc" false)
         (run host_left_behind init).1).2
    = [HostStatus true; RoomParticipants ∅]
  ∧ ∃ room',
      rooms (step (JoinRoom "C" "R" "carol" "pc" false)
               (run host_left_behind init).1).1 !! "R" = Some room'
      ∧ hostId room' = Some "C"
      ∧ is_Some (participants room' !! "B")
      ∧ is_Some (participants room' !! "C")
      ∧ delete "C" (participants room') ≠ ∅.
Proof.
  split.
  { apply run_reachable; [apply reachable_init|vm_compute; reflexivity]. }
  split.
  { eexists. split; [vm_compute; reflexivity|]. split; [reflexivity|].
    vm_compute. eexists. reflexivity. }
  split; [vm_compute; reflexivity|].
  eexists. split; [vm_compute; reflexivity|]. split; [reflexivity|].
  split; [vm_compute; eexists; reflexivity|].
  split; [vm_compute; eexists; reflexivity|].
  intros Hempty.
  apply (f_equal (λ m : gmap string Participant, m !! "B")) in Hempty.
  vm_compute in Hempty. discriminate.
Qed.

(** ** The host leaves *)

(** C7 fails on the code: the host "A" sends remove-participant for its
    own id.  Its record is deleted, then its socket is closed, and the
    "disconnect" listener, finding no record, neither sends host-left nor
    clears [hostId]: "A" is disconnected and still the host of "R". *)
Theorem host_gone_hostId_stays :
  reachable (run host_removes_itself init).1
  ∧ "A" ∈ sockets (run host_removes_itself init).1
  ∧ (∃ room,
       rooms (run host_removes_itself init).1 !! "R" = Some room
       ∧ hostId room = Some "A")
  ∧ ("A" ∉ sockets (step (RemoveParticipant "A" "R" "A" "pa")
                      (run host_removes_itself init).1).1)
  ∧ (∃ room',
       rooms (step (RemoveParticipant "A" "R" "A" "pa")
                (run host_removes_itself init).1).1 !! "R" = Some room'
       ∧ hostId room' = Some "A"
       ∧ hostPeerId room' = Some "pa"
       ∧ participants room' !! "A" = None
       ∧ is_Some (participants room' !! "B"))
  ∧ filter (λ m, is_host_left m)
      (received "B"
         (step (RemoveParticipant "A" "R" "A" "pa")
            (run host_removes_itself init).1).2)
    = [].
Proof.
  split.
  { apply run_reachable; [apply reachable_init|vm_compute; reflexivity]. }
  split; [vm_compute; reflexivity|].
  split.
  { eexists. split; [vm_compute; reflexivity|]. reflexivity. }
  split; [vm_compute; discriminate|].
  split; [|vm_compute; reflexivity].
  eexists. split; [vm_compute; reflexivity|].
  split; [reflexivity|]. split; [reflexivity|].
  split; [vm_compute; reflexivity|]. vm_compute. eexists. reflexivity.
Qed.

(** ** The host leaves while its record is in the room *)

Lemma filter_none {A} (P : A → Prop) `{!∀ a, Decision (P a)} (l : list A) :
  (∀ a, a ∈ l → ¬ P a) → filter P l = [].
Proof.
  induction l as [|b l IH]; intros Hl; [done|].
  rewrite filter_cons_False by (apply Hl, elem_of_cons; by left).
  apply IH. intros a Ha. apply Hl, elem_of_cons. by right.
Qed.

Lemma filter_bind_nil {A B} (P : B → Prop) `{!∀ b, Decision (P b)}
    (f : A → list B) (l : list A) :
  (∀ a, a ∈ l → filter P (f a) = []) → filter P (l ≫= f) = [].
Proof.
  induction l as [|b l IH]; intros Hl; [done|].
  rewrite bind_cons, filter_app, Hl by (apply elem_of_cons; by left).
  rewrite IH; [done|]. intros a Ha. apply Hl, elem_of_cons. by right.
Qed.

Lemma filter_bind_single {A B} (P : B → Prop) `{!∀ b, Decision (P b)}
    (f : A → list B) (l : list A) (a : A) :
  NoDup l → a ∈ l →
  (∀ b, b ∈ l → b ≠ a → filter P (f b) = []) →
  filter P (l ≫= f) = filter P (f a).
Proof.
  induction l as [|b l IH]; intros Hnd Hin Hl.
  { by apply elem_of_nil in Hin. }
  apply NoDup_cons in Hnd as [Hb Hnd]. rewrite bind_cons, filter_app.
  apply elem_of_cons in Hin as [->|Hin].
  - rewrite (filter_bind_nil P f l); [by rewrite app_nil_r|].
    intros a Ha. apply Hl; [apply elem_of_cons; by right|].
    by intros ->.
  - rewrite Hl; [|apply elem_of_cons; by left|by intros ->].
    simpl. apply IH; [done|done|].
    intros c Hc. apply Hl, elem_of_cons. by right.
Qed.

(** The messages of an iteration of the listener go through the socket.io
    room of that iteration. *)
Lemma disconnect_emits_channel (s : Server) (sid : SocketId) (k : RoomId)
    (room : Room) (d : Delivery) :
  d ∈ disconnect_emits s sid k room → channel d = InRoom k.
Proof.
  unfold disconnect_emits, io_to_room, socket_to_room.
  destruct (participants room !! sid); [|by intros ?%elem_of_nil].
  case_decide; intros (y & -> & _)%list_elem_of_fmap; done.
Qed.

Lemma received_in_on_disconnect (s : Server) (sid : SocketId) (r : RoomId)
    (room : Room) (x : SocketId) :
  rooms s !! r = Some room →
  received_in r x (on_disconnect sid s).2
  = received_in r x (disconnect_emits s sid r room).
Proof.
  intros Hr. unfold received_in, on_disconnect. simpl. f_equal.
  apply (filter_bind_single _
           (λ kr : string * Room, disconnect_emits s sid kr.1 kr.2)
           (map_to_list (rooms s)) (r, room)).
  - apply NoDup_map_to_list.
  - by apply elem_of_map_to_list.
  - intros [k rm] Hk Hne. apply elem_of_map_to_list in Hk. simpl.
    assert (k ≠ r) by (intros ->; apply Hne; congruence).
    apply filter_none. intros d Hd [Hch _].
    apply disconnect_emits_channel in Hd. congruence.
Qed.

(** X23: when the socket that holds [hostId] of a room closes and its
    record is still in [participants], the room loses its host, the record
    is deleted, the other records and the waiting entries of others stay, and
    every remaining participant receives exactly one host-left through the
    room.  (This is C7 without the case in which the host has deleted its
    own record first.) *)
Lemma host_disconnect_vacates (s : Server) (sid : SocketId) (r : RoomId)
    (room : Room) :
  consistent s →
  sid ∈ sockets s →
  rooms s !! r = Some room →
  hostId room = Some sid →
  is_Some (participants room !! sid) →
  ∃ room',
    rooms (step (Disconnect sid) s).1 !! r = Some room'
    ∧ hostId room' = None
    ∧ hostPeerId room' = None
    ∧ participants room' = delete sid (participants room)
    ∧ (∀ x, is_Some (participants room' !! x) →
        filter (λ m, is_host_left m)
          (received_in r x (step (Disconnect sid) s).2)
        = [HostLeft]).
Proof.
  intros Hc Hlive Hr Hh Hp. simpl. rewrite disconnect_live by done.
  exists (disconnect_room sid room). split.
  { rewrite on_disconnect_rooms, lookup_fmap.
    change (rooms (socket_leave_all sid s)) with (rooms s). by rewrite Hr. }
  split. { rewrite disconnect_room_hostId. by rewrite decide_True. }
  split. { rewrite disconnect_room_hostPeerId. by rewrite decide_True. }
  split; [apply disconnect_room_participants|].
  intros x Hx. rewrite disconnect_room_participants in Hx.
  assert (Hne : x ≠ sid).
  { intros ->. rewrite lookup_delete_eq in Hx. by destruct Hx. }
  rewrite lookup_delete_ne in Hx by done.
  rewrite (received_in_on_disconnect _ sid r room) by done.
  unfold disconnect_emits. destruct Hp as [p Hp]. rewrite Hp.
  rewrite decide_True by done. unfold io_to_room.
  rewrite received_in_broadcast, decide_True; [done|].
  rewrite room_sockets_leave. apply elem_of_difference.
  split; [|by apply not_elem_of_singleton].
  apply (adapter_joined s Hc). by exists room.
Qed.

(** ** What keeps the two sets of a room disjoint *)

Lemma all_disjoint_update (s s' : Server) (k : RoomId) (room2 : Room) :
  rooms s' = <[k := room2]> (rooms s) →
  all_disjoint s → disjoint_sets room2 → all_disjoint s'.
Proof.
  intros Hs' Hd H2 r room' Hr. rewrite Hs' in Hr.
  destruct (decide (k = r)) as [->|Hne].
  - rewrite lookup_insert_eq in Hr. by simplify_eq.
  - rewrite lookup_insert_ne in Hr by done. by eapply Hd.
Qed.

Lemma disjoint_disconnect_room (sid : SocketId) (room : Room) :
  disjoint_sets room → disjoint_sets (disconnect_room sid room).
Proof.
  intros Hd x [Hp Hw].
  rewrite disconnect_room_participants in Hp.
  rewrite disconnect_room_waiting in Hw.
  destruct (decide (x = sid)) as [->|Hne].
  - rewrite lookup_delete_eq in Hp. by destruct Hp.
  - rewrite lookup_delete_ne in Hp by done.
    rewrite lookup_delete_ne in Hw by done. by apply (Hd x).
Qed.

Lemma disconnect_all_disjoint (sid : SocketId) (s : Server) :
  all_disjoint s → all_disjoint (disconnect sid s).1.
Proof.
  intros Hd. unfold disconnect. case_decide; [|done].
  intros r room' Hr. rewrite on_disconnect_rooms, lookup_fmap in Hr.
  change (rooms (socket_leave_all sid s)) with (rooms s) in Hr.
  destruct (rooms s !! r) as [room|] eqn:Hroom; simplify_eq/=.
  apply disjoint_disconnect_room. by eapply Hd.
Qed.

(** X24: the two key sets of every room stay disjoint under every event,
    provided that join-room comes from a connection that is neither joined
    nor waiting in the room it asks for.  (This is C2 without the requests
    of connections that are already in the room.) *)
Lemma disjoint_sets_preserved (s : Server) (e : Event) :
  all_disjoint s → joins_afresh s e → all_disjoint (step e s).1.
Proof.
  intros Hd Hj. destruct e; simpl in *; unfold on_socket;
    try (case_decide; [|done]).
  - (* create *)
    eapply all_disjoint_update; [done|done|].
    intros x [Hp _]. simpl in Hp. rewrite lookup_empty in Hp. by destruct Hp.
  - done.
  - (* join *)
    unfold settle, join_room.
    destruct (rooms s !! roomId) as [room|] eqn:Hroom;
      [|by destruct (inherited_name roomId)].
    specialize (Hj room eq_refl). unfold present in Hj.
    rewrite !elem_of_dom in Hj.
    destruct (isHostFlag || _); simpl;
      (eapply all_disjoint_update; [done|done|]);
      intros x [Hp Hw]; simpl in *;
      (destruct (decide (x = sid)) as [->|Hne];
       [naive_solver|rewrite lookup_insert_ne in * by done]);
      by apply (Hd roomId room Hroom x).
  - (* approve *)
    unfold approve_participant.
    destruct (rooms s !! roomId) as [room|] eqn:Hroom; [|done].
    case_decide; [done|].
    destruct (waitingParticipants room !! participantId) as [w|] eqn:Hw;
      [|done].
    assert (H2 : disjoint_sets
                   (set_waiting
                      (delete participantId (waitingParticipants room))
                      (set_participants
                         (<[participantId :=
                              {| p_id := w_id w; username := w_username w;
                                 peerId := w_peerId w;
                                 socketId := w_socketId w;
                                 joinedAt := w_joinedAt w;
                                 audioEnabled := true; videoEnabled := true;
                                 isHost := false |}]> (participants room))
                         room))).
    { intros x [Hp Hw']. simpl in *.
      destruct (decide (x = participantId)) as [->|Hne].
      - rewrite lookup_delete_eq in Hw'. by destruct Hw'.
      - rewrite lookup_insert_ne in Hp by done.
        rewrite lookup_delete_ne in Hw' by done.
        by apply (Hd roomId room Hroom x). }
    simpl. case_decide; simpl; by eapply all_disjoint_update.
  - (* reject *)
    unfold reject_participant.
    destruct (rooms s !! roomId) as [room|] eqn:Hroom; [|done].
    case_decide; [done|].
    destruct (waitingParticipants room !! participantId) as [w|] eqn:Hw;
      [|done].
    assert (H1 : all_disjoint
                   (set_rooms
                      (<[roomId := set_waiting
                           (delete participantId (waitingParticipants room))
                           room]> (rooms s)) s)).
    { eapply all_disjoint_update; [done|done|].
      intros x [Hp Hw']. simpl in *.
      destruct (decide (x = participantId)) as [->|Hne].
      - rewrite lookup_delete_eq in Hw'. by destruct Hw'.
      - rewrite lookup_delete_ne in Hw' by done.
        by apply (Hd roomId room Hroom x). }
    simpl. case_decide; [|done]. rewrite then_disconnect_fst.
    by apply disconnect_all_disjoint.
  - (* toggle-audio *)
    unfold settle, toggle_audio.
    destruct (rooms s !! roomId) as [room|] eqn:Hroom;
      [|by destruct (inherited_name roomId)].
    destruct (participants room !! sid) as [p|] eqn:Hp; [|done].
    eapply all_disjoint_update; [done|done|].
    intros x [Hp' Hw]. simpl in *. apply (Hd roomId room Hroom x).
    split; [|done]. destruct (decide (x = sid)) as [->|Hne].
    + by rewrite Hp.
    + by rewrite lookup_insert_ne in Hp'.
  - (* toggle-video *)
    unfold settle, toggle_video.
    destruct (rooms s !! roomId) as [room|] eqn:Hroom;
      [|by destruct (inherited_name roomId)].
    destruct (participants room !! sid) as [p|] eqn:Hp; [|done].
    eapply all_disjoint_update; [done|done|].
    intros x [Hp' Hw]. simpl in *. apply (Hd roomId room Hroom x).
    split; [|done]. destruct (decide (x = sid)) as [->|Hne].
    + by rewrite Hp.
    + by rewrite lookup_insert_ne in Hp'.
  - (* remove *)
    unfold remove_participant.
    destruct (rooms s !! roomId) as [room|] eqn:Hroom; [|done].
    case_decide; [done|].
    destruct (participants room !! participantId) as [p|] eqn:Hp.
    2:{ destruct (inherited_name participantId); [|done].
        rewrite then_disconnect_fst. by apply disconnect_all_disjoint. }
    rewrite then_disconnect_fst. apply disconnect_all_disjoint. simpl.
    eapply all_disjoint_update; [done|done|].
    intros x [Hp' Hw]. simpl in *.
    destruct (decide (x = participantId)) as [->|Hne].
    + rewrite lookup_delete_eq in Hp'. by destruct Hp'.
    + rewrite lookup_delete_ne in Hp' by done.
      by apply (Hd roomId room Hroom x).
  - (* get-waiting *)
    unfold get_waiting_participants.
    destruct (rooms s !! roomId); [case_decide|]; done.
  - unfold settle, ping. by destruct ack.
  - by apply disconnect_all_disjoint.
  - (* elapse *)
    intros r room' Hr. unfold elapse in Hr. simpl in Hr.
    destruct (reap_all_lookup
                (filter (λ tr, (tr.1 ≤ now s + dt)%N) (timers s)) r (rooms s))
      as [Heq|[Hnone _]]; [|congruence].
    apply (Hd r). by rewrite <- Heq.
Qed.

(** ** What keeps the host unique *)

Lemma host_invariant_slot (room : Room) : host_invariant room ↔ host_slot room.
Proof.
  split; [by intros (_ & _ & ?)|]. intros Hs. split; [|split; [|done]].
  - intros x y px py Hx Hy Hpx Hpy.
    assert (hostId room = Some x) as Hhx by (apply Hs; eauto).
    assert (hostId room = Some y) as Hhy by (apply Hs; eauto).
    congruence.
  - intros h x px Hh Hx Hpx.
    assert (hostId room = Some x) as Hhx by (apply Hs; eauto).
    congruence.
Qed.

Lemma all_hosts_update (s s' : Server) (k : RoomId) (room2 : Room) :
  rooms s' = <[k := room2]> (rooms s) →
  all_hosts s → host_slot room2 → all_hosts s'.
Proof.
  intros Hs' Hd H2 r room' Hr. rewrite Hs' in Hr.
  destruct (decide (k = r)) as [->|Hne].
  - rewrite lookup_insert_eq in Hr. simplify_eq. by apply host_invariant_slot.
  - rewrite lookup_insert_ne in Hr by done. by eapply Hd.
Qed.

Lemma host_slot_disconnect_room (sid : SocketId) (room : Room) :
  host_slot room → host_slot (disconnect_room sid room).
Proof.
  intros Hs x. rewrite disconnect_room_participants, disconnect_room_hostId.
  destruct (decide (x = sid)) as [->|Hne].
  - rewrite lookup_delete_eq. split; [by intros (? & ? & ?)|].
    case_decide as Hc; [done|]. intros Hh. destruct Hc. split; [done|].
    apply Hs in Hh as (px & -> & _). by eexists.
  - rewrite lookup_delete_ne by done. rewrite (Hs x).
    case_decide as Hc; [|done]. destruct Hc as [Hh _]. rewrite Hh.
    split; [congruence|done].
Qed.

Lemma disconnect_all_hosts (sid : SocketId) (s : Server) :
  all_hosts s → all_hosts (disconnect sid s).1.
Proof.
  intros Hd. unfold disconnect. case_decide; [|done].
  intros r room' Hr. rewrite on_disconnect_rooms, lookup_fmap in Hr.
  change (rooms (socket_leave_all sid s)) with (rooms s) in Hr.
  destruct (rooms s !! r) as [room|] eqn:Hroom; simplify_eq/=.
  apply host_invariant_slot, host_slot_disconnect_room, host_invariant_slot.
  by eapply Hd.
Qed.

Lemma host_slot_toggle (sid : SocketId) (p p' : Participant) (room : Room) :
  participants room !! sid = Some p → isHost p' = isHost p →
  host_slot room →
  host_slot (set_participants (<[sid := p']> (participants room)) room).
Proof.
  intros Hp Hi Hs x. simpl. rewrite <- (Hs x).
  destruct (decide (x = sid)) as [->|Hne].
  - rewrite lookup_insert_eq, Hp. split; intros (? & ? & ?); simplify_eq.
    + exists p. split; [done|congruence].
    + exists p'. split; [done|congruence].
  - by rewrite lookup_insert_ne.
Qed.

(** X25: [host_invariant] of every room is kept by every event that
    respects the host.  (This is C1 without the requests that take the host
    role over from a present host and without the host acting on
    itself.) *)
Lemma host_invariant_preserved (s : Server) (e : Event) :
  all_hosts s → host_respected s e → all_hosts (step e s).1.
Proof.
  intros Hd Hj. destruct e; simpl in *; unfold on_socket;
    try (case_decide; [|done]).
  - (* create *)
    eapply all_hosts_update; [done|done|]. intros x. simpl.
    rewrite lookup_empty. split; [by intros (? & ? & ?)|done].
  - done.
  - (* join *)
    unfold settle, join_room.
    destruct (rooms s !! roomId) as [room|] eqn:Hroom;
      [|by destruct (inherited_name roomId)].
    pose proof (proj1 (host_invariant_slot room) (Hd roomId room Hroom)) as Hs.
    destruct (isHostFlag || _) eqn:Hbranch; simpl.
    + eapply all_hosts_update; [done|done|]. intros x. simpl.
      assert (Hh : hostId room = None ∨ hostId room = Some sid).
      { destruct isHostFlag; [by apply Hj|]. simpl in Hbranch.
        apply negb_true_iff, bool_decide_eq_false in Hbranch.
        left. destruct (hostId room); [|done]. destruct Hbranch. by eexists. }
      destruct (decide (x = sid)) as [->|Hne].
      * rewrite lookup_insert_eq. split; [done|]. intros _. by eexists.
      * rewrite lookup_insert_ne by done. rewrite (Hs x).
        split; [|congruence]. intros Hx. destruct Hh; congruence.
    + by eapply all_hosts_update.
  - (* approve *)
    unfold approve_participant.
    destruct (rooms s !! roomId) as [room|] eqn:Hroom; [|done].
    pose proof (proj1 (host_invariant_slot room) (Hd roomId room Hroom)) as Hs.
    case_decide as Hauth; [done|].
    destruct (waitingParticipants room !! participantId) as [w|] eqn:Hw;
      [|done].
    assert (H2 : host_slot
                   (set_waiting
                      (delete participantId (waitingParticipants room))
                      (set_participants
                         (<[participantId :=
                              {| p_id := w_id w; username := w_username w;
                                 peerId := w_peerId w;
                                 socketId := w_socketId w;
                                 joinedAt := w_joinedAt w;
                                 audioEnabled := true; videoEnabled := true;
                                 isHost := false |}]> (participants room))
                         room))).
    { intros x. simpl. destruct (decide (x = participantId)) as [->|Hne].
      - rewrite lookup_insert_eq. split.
        + intros (? & ? & ?). by simplify_eq.
        + congruence.
      - by rewrite lookup_insert_ne. }
    simpl. case_decide; simpl; by eapply all_hosts_update.
  - (* reject *)
    unfold reject_participant.
    destruct (rooms s !! roomId) as [room|] eqn:Hroom; [|done].
    pose proof (proj1 (host_invariant_slot room) (Hd roomId room Hroom)) as Hs.
    case_decide; [done|].
    destruct (waitingParticipants room !! participantId) as [w|] eqn:Hw;
      [|done].
    assert (H1 : all_hosts
                   (set_rooms
                      (<[roomId := set_waiting
                           (delete participantId (waitingParticipants room))
                           room]> (rooms s)) s)).
    { by eapply all_hosts_update. }
    simpl. case_decide; [|done]. rewrite then_disconnect_fst.
    by apply disconnect_all_hosts.
  - (* toggle-audio *)
    unfold settle, toggle_audio.
    destruct (rooms s !! roomId) as [room|] eqn:Hroom;
      [|by destruct (inherited_name roomId)].
    pose proof (proj1 (host_invariant_slot room) (Hd roomId room Hroom)) as Hs.
    destruct (participants room !! sid) as [p|] eqn:Hp; [|done].
    eapply all_hosts_update; [done|done|]. by eapply host_slot_toggle.
  - (* toggle-video *)
    unfold settle, toggle_video.
    destruct (rooms s !! roomId) as [room|] eqn:Hroom;
      [|by destruct (inherited_name roomId)].
    pose proof (proj1 (host_invariant_slot room) (Hd roomId room Hroom)) as Hs.
    destruct (participants room !! sid) as [p|] eqn:Hp; [|done].
    eapply all_hosts_update; [done|done|]. by eapply host_slot_toggle.
  - (* remove *)
    unfold remove_participant.
    destruct (rooms s !! roomId) as [room|] eqn:Hroom; [|done].
    pose proof (proj1 (host_invariant_slot room) (Hd roomId room Hroom)) as Hs.
    case_decide as Hauth; [done|].
    destruct (participants room !! participantId) as [p|] eqn:Hp.
    2:{ destruct (inherited_name participantId); [|done].
        rewrite then_disconnect_fst. by apply disconnect_all_hosts. }
    rewrite then_disconnect_fst. apply disconnect_all_hosts. simpl.
    eapply all_hosts_update; [done|done|]. intros x. simpl.
    destruct (decide (x = participantId)) as [->|Hne].
    + rewrite lookup_delete_eq. split; [by intros (? & ? & ?)|congruence].
    + by rewrite lookup_delete_ne.
  - (* get-waiting *)
    unfold get_waiting_participants.
    destruct (rooms s !! roomId); [case_decide|]; done.
  - unfold settle, ping. by destruct ack.
  - by apply disconnect_all_hosts.
  - (* elapse *)
    intros r room' Hr. unfold elapse in Hr. simpl in Hr.
    destruct (reap_all_lookup
                (filter (λ tr, (tr.1 ≤ now s + dt)%N) (timers s)) r (rooms s))
      as [Heq|[Hnone _]]; [|congruence].
    apply (Hd r). by rewrite <- Heq.
Qed.

(** * The rest of the server: proofs *)

(** ** Every room of a state comes from a room of the state before *)

Lemma room_change_disconnect (sid : SocketId) (s : Server) (r : RoomId)
    (room' : Room) :
  rooms (disconnect sid s).1 !! r = Some room' →
  ∃ room, rooms s !! r = Some room ∧ room_change room room'.
Proof.
  unfold disconnect. case_decide.
  - rewrite on_disconnect_rooms, lookup_fmap.
    change (rooms (socket_leave_all sid s)) with (rooms s).
    destruct (rooms s !! r) as [room|]; intros; simplify_eq/=.
    exists room. split; [done|constructor].
  - intros Hr. exists room'. split; [done|constructor].
Qed.

Lemma room_change_update (s : Server) (k r : RoomId) (room room2 room' : Room) :
  rooms s !! k = Some room → room_change room room2 →
  <[k := room2]> (rooms s) !! r = Some room' →
  ∃ room0, rooms s !! r = Some room0 ∧ room_change room0 room'.
Proof.
  intros Hk Hc Hr. destruct (decide (k = r)) as [->|Hne].
  - rewrite lookup_insert_eq in Hr. simplify_eq. by exists room.
  - rewrite lookup_insert_ne in Hr by done. exists room'.
    split; [done|constructor].
Qed.

(** A room of the state after an event is the new room of a create, or a
    room of the state before, rewritten by the handlers. *)
Lemma step_room_change (e : Event) (s : Server) (r : RoomId) (room' : Room) :
  rooms (step e s).1 !! r = Some room' →
  (e = CreateRoom r ∧ room' = new_room r (now s))
  ∨ ∃ room, rooms s !! r = Some room ∧ room_change room room'.
Proof.
  assert (Hsame : rooms s !! r = Some room' →
                  ∃ room, rooms s !! r = Some room ∧ room_change room room').
  { intros Hr. exists room'. split; [done|constructor]. }
  destruct e; simpl; unfold on_socket; try (case_decide; [|by right; auto]).
  - (* create *)
    unfold create_room. simpl. destruct (decide (roomId = r)) as [->|Hne].
    + rewrite lookup_insert_eq. intros [= <-]. by left.
    + rewrite lookup_insert_ne by done. by right; auto.
  - by right; auto.
  - (* join *)
    unfold settle, join_room.
    destruct (rooms s !! roomId) as [room|] eqn:Hroom;
      [|destruct (inherited_name roomId); by right; auto].
    destruct (isHostFlag || _); simpl; intros Hr; right;
      (eapply room_change_update; [exact Hroom| |exact Hr]).
    + apply (change_host sid user peer (now s)).
    + apply (change_wait sid user peer (now s)).
  - (* approve *)
    unfold approve_participant.
    destruct (rooms s !! roomId) as [room|] eqn:Hroom; [|by right; auto].
    case_decide; [by right; auto|].
    destruct (waitingParticipants room !! participantId) as [w|] eqn:Hw;
      [|by right; auto].
    simpl. case_decide; simpl; intros Hr; right;
      (eapply room_change_update; [exact Hroom| |exact Hr]);
      by apply change_approve.
  - (* reject *)
    unfold reject_participant.
    destruct (rooms s !! roomId) as [room|] eqn:Hroom; [|by right; auto].
    case_decide; [by right; auto|].
    destruct (waitingParticipants room !! participantId) as [w|] eqn:Hw;
      [|by right; auto].
    simpl. case_decide.
    + rewrite then_disconnect_fst. simpl. intros Hr. right.
      apply room_change_disconnect in Hr as (room1 & Hr1 & Hc1). simpl in Hr1.
      eapply room_change_update in Hr1 as (room0 & Hr0 & Hc0);
        [|exact Hroom|apply (change_reject participantId)].
      exists room0. split; [done|]. by eapply change_trans.
    + simpl. intros Hr. right.
      eapply room_change_update; [exact Hroom| |exact Hr].
      apply change_reject.
  - (* toggle-audio *)
    unfold settle, toggle_audio.
    destruct (rooms s !! roomId) as [room|] eqn:Hroom;
      [|destruct (inherited_name roomId); by right; auto].
    destruct (participants room !! sid) as [p|] eqn:Hp; [|by right; auto].
    simpl. intros Hr. right.
    eapply room_change_update; [exact Hroom| |exact Hr].
    by apply change_audio.
  - (* toggle-video *)
    unfold settle, toggle_video.
    destruct (rooms s !! roomId) as [room|] eqn:Hroom;
      [|destruct (inherited_name roomId); by right; auto].
    destruct (participants room !! sid) as [p|] eqn:Hp; [|by right; auto].
    simpl. intros Hr. right.
    eapply room_change_update; [exact Hroom| |exact Hr].
    by apply change_video.
  - (* remove *)
    unfold remove_participant.
    destruct (rooms s !! roomId) as [room|] eqn:Hroom; [|by right; auto].
    case_decide; [by right; auto|].
    destruct (participants room !! participantId) as [p|] eqn:Hp.
    2:{ destruct (inherited_name participantId); [|by right; auto].
        rewrite then_disconnect_fst. simpl. intros Hr. right.
        by apply room_change_disconnect in Hr. }
    rewrite then_disconnect_fst. simpl. intros Hr. right.
    apply room_change_disconnect in Hr as (room1 & Hr1 & Hc1). simpl in Hr1.
    eapply room_change_update in Hr1 as (room0 & Hr0 & Hc0);
      [|exact Hroom|apply (change_remove participantId)].
    exists room0. split; [done|]. by eapply change_trans.
  - (* get-waiting *)
    unfold get_waiting_participants.
    destruct (rooms s !! roomId); [case_decide|]; by right; auto.
  - unfold settle, ping. destruct ack; by right; auto.
  - intros Hr. right. by apply room_change_disconnect in Hr.
  - (* elapse *)
    intros Hr. right. apply Hsame. unfold elapse in Hr. simpl in Hr.
    destruct (reap_all_lookup
                (filter (λ tr, (tr.1 ≤ now s + dt)%N) (timers s)) r (rooms s))
      as [Heq|[Hnone _]]; congruence.
Qed.

(** An invariant of rooms that the new room has and every rewriting keeps
    holds in every reachable state. *)
Lemma reachable_rooms_ind (P : RoomId → Room → Prop) :
  (∀ r t, P r (new_room r t)) →
  (∀ r room room', room_change room room' → P r room → P r room') →
  ∀ s, reachable s → ∀ r room, rooms s !! r = Some room → P r room.
Proof.
  intros Hnew Hkeep s Hs.
  induction Hs as [|s e Hs IH Ha]; intros r room' Hr.
  { simpl in Hr. by rewrite lookup_empty in Hr. }
  apply step_room_change in Hr as [[_ ->]|(room & Hroom & Hc)]; [apply Hnew|].
  eapply Hkeep; eauto.
Qed.

(** ** Records under their own id *)

Lemma room_change_r_id (room room' : Room) :
  room_change room room' → r_id room' = r_id room.
Proof.
  induction 1; try done.
  - unfold disconnect_room. repeat case_match; done.
  - congruence.
Qed.

Lemma keyed_disconnect_room (sid : SocketId) (room : Room) :
  keyed room → keyed (disconnect_room sid room).
Proof.
  intros [Hp Hw]. split.
  - intros k p. rewrite disconnect_room_participants.
    intros [_ Hk]%lookup_delete_Some. by apply Hp.
  - intros k w. rewrite disconnect_room_waiting.
    intros [_ Hk]%lookup_delete_Some. by apply Hw.
Qed.

Lemma room_change_keyed (room room' : Room) :
  room_change room room' → keyed room → keyed room'.
Proof.
  induction 1 as [room|sid user peer t room|sid user peer t room|pid w room Hw
                  |pid room|sid p enabled room Hp|sid p enabled room Hp
                  |pid room|sid room|room1 room2 room3 _ IH1 _ IH2];
    intros [Hkp Hkw]; try done.
  - split; [|done]. intros k p. simpl.
    intros [[<- <-]|[_ Hk]]%lookup_insert_Some; [done|by apply Hkp].
  - split; [done|]. intros k w. simpl.
    intros [[<- <-]|[_ Hk]]%lookup_insert_Some; [done|by apply Hkw].
  - split.
    + intros k p. simpl.
      intros [[<- <-]|[_ Hk]]%lookup_insert_Some; [|by apply Hkp].
      simpl. by apply Hkw.
    + intros k w'. simpl. intros [_ Hk]%lookup_delete_Some. by apply Hkw.
  - split; [done|]. intros k w. simpl.
    intros [_ Hk]%lookup_delete_Some. by apply Hkw.
  - split; [|done]. intros k q. simpl.
    intros [[<- <-]|[_ Hk]]%lookup_insert_Some; [|by apply Hkp].
    simpl. by apply Hkp.
  - split; [|done]. intros k q. simpl.
    intros [[<- <-]|[_ Hk]]%lookup_insert_Some; [|by apply Hkp].
    simpl. by apply Hkp.
  - split; [|done]. intros k q. simpl.
    intros [_ Hk]%lookup_delete_Some. by apply Hkp.
  - by apply keyed_disconnect_room.
  - by apply IH2, IH1.
Qed.

Lemma reachable_keyed (s : Server) (r : RoomId) (room : Room) :
  reachable s → rooms s !! r = Some room → r_id room = r ∧ keyed room.
Proof.
  intros Hs Hr.
  apply (reachable_rooms_ind (λ r room, r_id room = r ∧ keyed room))
    with (s := s); [| |done|done].
  - intros r0 t. split; [done|]. split; intros k x; simpl;
      by rewrite lookup_empty.
  - intros r0 rm rm' Hc [Hid Hk]. split.
    + by rewrite (room_change_r_id rm rm').
    + by eapply room_change_keyed.
Qed.

(** X1: as long as no approve-participant request has named an inherited
    property, each room of the registry holds its own key in [id], each
    participant record is stored under the [id] and the [socketId] it
    holds, and each waiting record likewise. *)
Theorem records_keyed (s : Server) (r : RoomId) (room : Room) :
  reachable_plain s → rooms s !! r = Some room →
  r_id room = r
  ∧ (∀ k p, participants room !! k = Some p → p_id p = k ∧ socketId p = k)
  ∧ (∀ k w, waitingParticipants room !! k = Some w →
            w_id w = k ∧ w_socketId w = k).
Proof. intros Hs%reachable_plain_reachable. by apply reachable_keyed. Qed.

Lemma records_keyed_witness :
  ∃ room,
    rooms (run room_with_candidate init).1 !! "R" = Some room
    ∧ r_id room = "R".
Proof.
  eexists. split; [vm_compute; reflexivity|].
  apply (records_keyed (run room_with_candidate init).1 "R").
  - apply run_reachable_plain;
      [apply plain_init|vm_compute; reflexivity|vm_compute; reflexivity].
  - vm_compute. reflexivity.
Defined.

(** ** The host and its peer id *)

Lemma room_change_host_peer (room room' : Room) :
  room_change room room' → host_peer_cleared room → host_peer_cleared room'.
Proof.
  induction 1; unfold host_peer_cleared in *; simpl; try done.
  - rewrite disconnect_room_hostId, disconnect_room_hostPeerId.
    by case_decide.
  - auto.
Qed.

(** X2: in every reachable state a room that has no [hostId] has no
    [hostPeerId] either.  Only "join-room" writes [hostPeerId], and it sets
    [hostId] to the id of the socket with it; the "disconnect" listener
    clears the two together. *)
Theorem host_peer_cleared_with_host (s : Server) (r : RoomId) (room : Room) :
  reachable s → rooms s !! r = Some room →
  hostId room = None → hostPeerId room = None.
Proof.
  intros Hs Hr.
  apply (reachable_rooms_ind (λ _ room, host_peer_cleared room))
    with (s := s) (r := r); [| |done|done].
  - done.
  - intros r0 rm rm'. apply room_change_host_peer.
Qed.

(** The host "A" has left room "R", where "B" stays. *)
Lemma host_peer_cleared_with_host_witness :
  ∃ room,
    rooms (run host_left_behind init).1 !! "R" = Some room
    ∧ is_Some (participants room !! "B")
    ∧ hostPeerId room = None.
Proof.
  eexists. split; [vm_compute; reflexivity|].
  split; [vm_compute; eexists; reflexivity|].
  apply (host_peer_cleared_with_host (run host_left_behind init).1 "R").
  - apply run_reachable; [apply reachable_init|vm_compute; reflexivity].
  - vm_compute. reflexivity.
  - vm_compute. reflexivity.
Defined.

(** ** Timers *)

Lemma disconnect_timer_origin (sid : SocketId) (s : Server) (d : N)
    (r : RoomId) :
  (d, r) ∈ timers (disconnect sid s).1 →
  (d, r) ∈ timers s ∨ d = (now s + grace)%N.
Proof.
  unfold disconnect. case_decide; [|by left]. simpl.
  intros [Hold|Hnew]%elem_of_app; [by left|right].
  apply list_elem_of_bind in Hnew as ([k room] & Hin & _).
  unfold disconnect_timer in Hin. simpl in Hin.
  destruct (room_empty _); [|by apply elem_of_nil in Hin].
  apply list_elem_of_singleton in Hin. by simplify_eq.
Qed.

Lemma step_timer_origin (e : Event) (s : Server) (d : N) (r : RoomId) :
  (d, r) ∈ timers (step e s).1 →
  ((d, r) ∈ timers s ∧ ∀ dt, e = Elapse dt → (now s + dt < d)%N)
  ∨ (d = (now s + grace)%N ∧ closes_socket e = true).
Proof.
  destruct e; simpl; unfold_handlers;
    repeat case_match; simplify_eq; simpl;
    rewrite ?then_disconnect_fst; simpl;
    try (intros Hin; left; split; [exact Hin|intros ? [=]]).
  - intros [?|?]%disconnect_timer_origin; [left|right]; split; try done;
      by intros ? [=].
  - intros [?|?]%disconnect_timer_origin; [left|right]; split; try done;
      by intros ? [=].
  - intros [?|?]%disconnect_timer_origin; [left|right]; split; try done;
      by intros ? [=].
  - intros [?|?]%disconnect_timer_origin; [left|right]; split; try done;
      by intros ? [=].
  - intros [Hlate Hin]%list_elem_of_filter. left. split; [done|].
    intros ? [= <-]. simpl in Hlate. lia.
Qed.

(** X3: in every reachable state each pending deletion check is due
    later than now and at most 60000 ms from now: checks are only set by the
    "disconnect" listener, 60000 ms ahead, and a check fires as soon as the
    clock reaches it. *)
Theorem timers_within_grace (s : Server) (d : N) (r : RoomId) :
  reachable s → (d, r) ∈ timers s → (now s < d ∧ d ≤ now s + grace)%N.
Proof.
  intros Hs. revert d r. induction Hs as [|s e Hs IH Ha]; intros d r Hin.
  { by apply elem_of_nil in Hin. }
  pose proof (step_now e s) as Hnow.
  apply step_timer_origin in Hin as [[Hold Hel]|[-> Hc]].
  - specialize (IH d r Hold). destruct e; rewrite Hnow; try lia.
    specialize (Hel dt eq_refl). lia.
  - rewrite Hnow. destruct e; try done; unfold grace; lia.
Qed.

Lemma timers_within_grace_witness :
  (now (run (hosted_room ++ [Disconnect "A"; Elapse 1000]) init).1 < 60000
   ∧ 60000 ≤ now (run (hosted_room ++ [Disconnect "A"; Elapse 1000]) init).1
              + grace)%N.
Proof.
  apply (timers_within_grace
           (run (hosted_room ++ [Disconnect "A"; Elapse 1000]) init).1
           60000%N "R").
  - apply run_reachable; [apply reachable_init|vm_compute; reflexivity].
  - vm_compute. apply list_elem_of_singleton. reflexivity.
Defined.

(** X4: the registry only loses a room to a deletion check: if a room is
    in the registry before an event and not after it, the event is the
    passing of time, a check for that room was pending and has come due,
    and the room had neither participants nor waiting entrants. *)
Theorem room_removed_only_by_timer (e : Event) (s : Server) (r : RoomId)
    (room : Room) :
  rooms s !! r = Some room →
  rooms (step e s).1 !! r = None →
  ∃ dt d,
    e = Elapse dt ∧ (d, r) ∈ timers s ∧ (d ≤ now s + dt)%N
    ∧ room_empty room = true.
Proof.
  intros Hr Hgone.
  assert (Hel : (∃ dt, e = Elapse dt) ∨ ∀ dt, e ≠ Elapse dt).
  { destruct e; try (by right); left; eauto. }
  destruct Hel as [[dt ->]|Hne].
  - simpl in Hgone.
    destruct (reap_all_lookup
                (filter (λ tr, (tr.1 ≤ now s + dt)%N) (timers s)) r (rooms s))
      as [Heq|(_ & Hin & room0 & Hr0 & He)]; [congruence|].
    apply list_elem_of_fmap in Hin as ([d r'] & -> & Hin).
    apply list_elem_of_filter in Hin as [Hdue Hin].
    exists dt, d. simplify_eq. done.
  - destruct (step_room_kept e s r Hne) as [room' Hr']; [by eexists|].
    congruence.
Qed.

Lemma room_removed_only_by_timer_witness :
  ∃ dt d,
    Elapse grace = Elapse dt
    ∧ (d, "R") ∈ timers (run (hosted_room ++ [Disconnect "A"]) init).1
    ∧ (d ≤ now (run (hosted_room ++ [Disconnect "A"]) init).1 + dt)%N
    ∧ room_empty (new_room "R" 0) = true.
Proof.
  apply (room_removed_only_by_timer (Elapse grace)
           (run (hosted_room ++ [Disconnect "A"]) init).1 "R").
  - vm_compute. reflexivity.
  - vm_compute. reflexivity.
Defined.

Lemma due_elem (t : N) (l : list (N * RoomId)) (r : RoomId) :
  r ∈ (filter (λ tr, (tr.1 ≤ t)%N) l).*2 ↔ ∃ d, (d, r) ∈ l ∧ (d ≤ t)%N.
Proof.
  rewrite list_elem_of_fmap. split.
  - intros ([d r'] & -> & [Hd Hin]%list_elem_of_filter). by exists d.
  - intros (d & Hin & Hd). exists (d, r). split; [done|].
    by apply list_elem_of_filter.
Qed.

(** What the passing of time does to one room. *)
Lemma elapse_lookup (dt : N) (s : Server) (r : RoomId) :
  rooms (elapse dt s) !! r
  = match rooms s !! r with
    | Some room =>
      if room_empty room
         && bool_decide
              (r ∈ (filter (λ tr, (tr.1 ≤ now s + dt)%N) (timers s)).*2)
      then None else Some room
    | None => None
    end.
Proof.
  unfold elapse. simpl.
  destruct (reap_all_lookup
              (filter (λ tr, (tr.1 ≤ now s + dt)%N) (timers s)) r (rooms s))
    as [Heq|(Hnone & Hin & room0 & Hr0 & He)].
  - rewrite Heq. destruct (rooms s !! r) as [room|] eqn:Hr; [|done].
    destruct (room_empty room) eqn:He; [|done].
    case_bool_decide as Hin; [|done]. simpl.
    rewrite <- Heq. apply reap_all_deletes; [done|]. intros rm. congruence.
  - rewrite Hnone, Hr0, He. by rewrite bool_decide_eq_true_2.
Qed.

Lemma filter_filter_late (t1 t2 : N) (l : list (N * RoomId)) :
  (t1 ≤ t2)%N →
  filter (λ tr, ¬ (tr.1 ≤ t2)%N) (filter (λ tr, ¬ (tr.1 ≤ t1)%N) l)
  = filter (λ tr, ¬ (tr.1 ≤ t2)%N) l.
Proof.
  intros Ht. rewrite list_filter_filter. apply list_filter_iff.
  intros [d r]. simpl. lia.
Qed.

(** X5: waiting in two parts is waiting once: letting [a] and then [b]
    milliseconds pass leaves the server in the state in which [a + b]
    milliseconds have passed.  The callbacks of the timers look at
    their own room only, so the order in which they run does not count. *)
Theorem elapse_split (a b : N) (s : Server) :
  elapse b (elapse a s) = elapse (a + b) s.
Proof.
  assert (Hrooms : rooms (elapse b (elapse a s)) = rooms (elapse (a + b) s)).
  { apply map_eq. intros r. rewrite !elapse_lookup.
    destruct (rooms s !! r) as [room|] eqn:Hr; [|done].
    destruct (room_empty room) eqn:He; simpl; [|by rewrite He].
    case_bool_decide as Ha.
    - rewrite bool_decide_eq_true_2; [done|].
      apply due_elem in Ha as (d & Hin & Hd). apply due_elem. exists d.
      split; [done|lia].
    - rewrite He. simpl.
      rewrite (bool_decide_ext
                 (r ∈ (filter (λ tr, (tr.1 ≤ now s + a + b)%N)
                         (filter (λ tr, ¬ (tr.1 ≤ now s + a)%N) (timers s))).*2)
                 (r ∈ (filter (λ tr, (tr.1 ≤ now s + (a + b))%N)
                         (timers s)).*2)); [done|].
      rewrite !due_elem. split.
      + intros (d & [_ Hin]%list_elem_of_filter & Hd). exists d.
        split; [done|lia].
      + intros (d & Hin & Hd). exists d. split; [|lia].
        apply list_elem_of_filter. split; [|done]. simpl. intros Hle.
        apply Ha, due_elem. by exists d. }
  unfold elapse in *. simpl in *. f_equal.
  - exact Hrooms.
  - rewrite N.add_assoc. apply filter_filter_late. lia.
  - lia.
Qed.

(** ** Where the messages go *)

(** Case analysis on the membership of a list of messages. *)
Ltac elems H :=
  repeat match type of H with
  | _ ∈ _ ++ _ => apply elem_of_app in H as [H|H]
  | _ ∈ _ :: _ => apply elem_of_cons in H as [H|H]
  | _ ∈ [] => by apply elem_of_nil in H
  end.

Lemma socket_emit_elem (sid : SocketId) (m : Msg) (d : Delivery) :
  d ∈ socket_emit sid m → channel d = Direct ∧ recipient d = sid.
Proof. unfold socket_emit. by intros ->%list_elem_of_singleton. Qed.

Lemma io_to_socket_elem (s : Server) (x : SocketId) (m : Msg) (d : Delivery) :
  d ∈ io_to_socket s x m →
  channel d = Direct ∧ recipient d = x ∧ x ∈ sockets s.
Proof.
  unfold io_to_socket. case_decide; [|by intros ?%elem_of_nil].
  by intros ->%list_elem_of_singleton.
Qed.

Lemma io_to_room_elem (s : Server) (r : RoomId) (m : Msg) (d : Delivery) :
  d ∈ io_to_room s r m →
  channel d = InRoom r ∧ recipient d ∈ room_sockets s r.
Proof.
  intros (x & -> & Hx)%list_elem_of_fmap. by apply elem_of_elements in Hx.
Qed.

Lemma socket_to_room_elem (s : Server) (sid : SocketId) (r : RoomId)
    (m : Msg) (d : Delivery) :
  d ∈ socket_to_room s sid r m →
  channel d = InRoom r ∧ recipient d ∈ room_sockets s r ∧ recipient d ≠ sid.
Proof.
  intros (x & -> & Hx)%list_elem_of_fmap. apply elem_of_elements in Hx.
  simpl. set_solver.
Qed.

(** The listener only speaks to the socket.io rooms, and not to the socket
    that has closed. *)
Lemma disconnect_delivery (sid : SocketId) (s : Server) (d : Delivery) :
  d ∈ (disconnect sid s).2 →
  ∃ r, channel d = InRoom r ∧ recipient d ∈ room_sockets s r
       ∧ recipient d ≠ sid.
Proof.
  unfold disconnect. case_decide; [|by intros ?%elem_of_nil]. simpl.
  intros ([k room] & Hd & _)%list_elem_of_bind. simpl in Hd. exists k.
  unfold disconnect_emits in Hd.
  destruct (participants room !! sid); [|by apply elem_of_nil in Hd].
  case_decide.
  - apply io_to_room_elem in Hd as [Hc Hr].
    rewrite room_sockets_leave in Hr. set_solver.
  - apply socket_to_room_elem in Hd as (Hc & Hr & Hne).
    rewrite room_sockets_leave in Hr. set_solver.
Qed.

(** Where a message of a handler goes: to a connected socket; and when it
    is sent through the socket.io room of a room id, to a participant of
    that room. *)
Lemma step_delivery (e : Event) (s : Server) (d : Delivery) :
  consistent s →
  d ∈ (step e s).2 →
  recipient d ∈ sockets s
  ∧ ∀ r, channel d = InRoom r →
         joined s r (recipient d) ∨ joined (step e s).1 r (recipient d).
Proof.
  intros Hc.
  assert (Hdirect : ∀ x, x ∈ sockets s → channel d = Direct →
            recipient d = x →
            recipient d ∈ sockets s
            ∧ ∀ r, channel d = InRoom r →
                   joined s r (recipient d)
                   ∨ joined (step e s).1 r (recipient d)).
  { intros x Hx Hch ->. split; [done|]. intros r. by rewrite Hch. }
  assert (Hroom : ∀ k, recipient d ∈ room_sockets s k →
            channel d = InRoom k →
            recipient d ∈ sockets s
            ∧ ∀ r, channel d = InRoom r →
                   joined s r (recipient d)
                   ∨ joined (step e s).1 r (recipient d)).
  { intros k Hk Hch. split; [by eapply adapter_live|].
    intros r. rewrite Hch. intros [= <-]. left. by apply adapter_joined. }
  destruct e; simpl in *; unfold on_socket in *;
    try (by intros ?%elem_of_nil);
    try (case_decide as Hlive; [|by intros ?%elem_of_nil]).
  all: unfold settle, join_room, approve_participant, reject_participant,
         toggle_audio, toggle_video, remove_participant,
         get_waiting_participants, ping in *.
  all: try (destruct (rooms s !! roomId) as [room|] eqn:Hroomk).
  all: try (destruct (inherited_name roomId)).
  all: try (destruct ack).
  all: repeat case_decide.
  all: try (destruct (waitingParticipants room !! participantId)
              as [w|] eqn:Hw).
  all: try (destruct (participants room !! participantId) as [p|] eqn:Hp).
  all: try (destruct (inherited_name participantId)).
  all: try (destruct (participants room !! sid) as [p|] eqn:Hp).
  all: try (destruct (isHostFlag || _)).
  all: simpl; rewrite ?then_disconnect_snd; simpl.
  all: repeat case_decide; simpl.
  all: try (destruct (hostId room) as [h|] eqn:Hh).
  all: intros Hd; elems Hd.
  all: try (subst d; by eapply Hdirect).
  all: try (apply socket_emit_elem in Hd as [? ?]; by eapply Hdirect).
  all: try (apply io_to_socket_elem in Hd as (? & ? & ?); by eapply Hdirect).
  all: try (apply disconnect_delivery in Hd as (? & ? & ? & ?);
            by eapply Hroom).
  all: try (apply socket_to_room_elem in Hd as (? & ? & ?); by eapply Hroom).
  (* what is left is the broadcast of approve-participant *)
  all: apply socket_to_room_elem in Hd as (Hch & Hr & Hne).
  all: rewrite (room_sockets_join participantId roomId roomId (set_rooms _ s))
         in Hr.
  all: rewrite decide_True in Hr by done.
  all: apply elem_of_union in Hr as [Hr|Hr]; [|by eapply Hroom].
  all: apply elem_of_singleton in Hr; (split; [by rewrite Hr|]).
  all: intros r; rewrite Hch; intros [= <-]; right; eexists.
  all: split; [simpl; by rewrite lookup_insert_eq|]; simpl.
  all: rewrite Hr, lookup_insert_eq; by eexists.
Qed.

(** X6: in a reachable state every message that an event makes the server
    send goes to a socket that is connected when the event arrives. *)
Theorem sends_only_to_connected (e : Event) (s : Server) (d : Delivery) :
  reachable s → d ∈ (step e s).2 → recipient d ∈ sockets s.
Proof.
  intros Hs Hd. by apply (step_delivery e s d (reachable_consistent s Hs)).
Qed.

Lemma sends_only_to_connected_witness :
  recipient (mkDelivery Direct "C" ApprovalGranted)
    ∈ sockets (run room_with_candidate init).1.
Proof.
  apply (sends_only_to_connected (ApproveParticipant "A" "R" "C")).
  - apply run_reachable; [apply reachable_init|vm_compute; reflexivity].
  - vm_compute. apply list_elem_of_here.
Defined.



(** ** A connection is lost *)

(** X8: when a connected socket closes, it is taken out of the socket
    table and out of [participants] and [waitingParticipants] of every room
    of the registry; no room is added or dropped, and the records of the
    other connections stay as they are. *)
Theorem disconnect_leaves_every_room (sid : SocketId) (s : Server) :
  sid ∈ sockets s →
  sockets (step (Disconnect sid) s).1 = sockets s ∖ {[sid]}
  ∧ dom (rooms (step (Disconnect sid) s).1) = dom (rooms s)
  ∧ ∀ r room',
      rooms (step (Disconnect sid) s).1 !! r = Some room' →
      ¬ present sid room'
      ∧ ∃ room,
          rooms s !! r = Some room
          ∧ participants room' = delete sid (participants room)
          ∧ waitingParticipants room'
            = delete sid (waitingParticipants room).
Proof.
  intros Hlive. simpl. rewrite disconnect_live by done.
  split; [done|]. split.
  { rewrite on_disconnect_rooms. apply dom_fmap_L. }
  intros r room' Hr. rewrite on_disconnect_rooms, lookup_fmap in Hr.
  change (rooms (socket_leave_all sid s)) with (rooms s) in Hr.
  destruct (rooms s !! r) as [room|] eqn:Hroom; simplify_eq/=. split.
  - rewrite present_disconnect_room. by intros [? _].
  - exists room. split; [done|].
    by rewrite disconnect_room_participants, disconnect_room_waiting.
Qed.

Lemma disconnect_leaves_every_room_witness :
  sockets (step (Disconnect "A") (run two_rooms init).1).1
  = sockets (run two_rooms init).1 ∖ {["A"]}.
Proof.
  apply (disconnect_leaves_every_room "A" (run two_rooms init).1).
  vm_compute. reflexivity.
Defined.



(** X10: when a connection that is not a participant of a room is lost (it
    was waiting there, or not in the room at all), nothing is sent through
    that room, and the room keeps its participants, its host and the
    waiting entries of the others: a waiting entrant goes unannounced. *)
Theorem waiting_disconnect_silent (s : Server) (sid : SocketId) (r : RoomId)
    (room : Room) :
  sid ∈ sockets s →
  rooms s !! r = Some room →
  participants room !! sid = None →
  rooms (step (Disconnect sid) s).1 !! r
    = Some (set_waiting (delete sid (waitingParticipants room)) room)
  ∧ ∀ d, d ∈ (step (Disconnect sid) s).2 → channel d ≠ InRoom r.
Proof.
  intros Hlive Hr Hp. simpl. rewrite disconnect_live by done. split.
  - rewrite on_disconnect_rooms, lookup_fmap.
    change (rooms (socket_leave_all sid s)) with (rooms s). rewrite Hr.
    simpl. f_equal. unfold disconnect_room. rewrite Hp.
    destruct (waitingParticipants room !! sid) eqn:Hw; [done|].
    rewrite delete_id by done. by destruct room.
  - intros d ([k rm] & Hd & Hk)%list_elem_of_bind Hch. simpl in Hd.
    apply elem_of_map_to_list in Hk. simpl in Hk.
    pose proof (disconnect_emits_channel _ _ _ _ _ Hd) as Hch'.
    rewrite Hch in Hch'. injection Hch' as <-. simplify_eq.
    unfold disconnect_emits in Hd. rewrite Hp in Hd.
    by apply elem_of_nil in Hd.
Qed.

Lemma waiting_disconnect_silent_witness :
  rooms (step (Disconnect "C") (run room_with_candidate init).1).1 !! "R"
  = rooms (run (room_with_candidate ++ [Disconnect "C"]) init).1 !! "R".
Proof.
  edestruct (waiting_disconnect_silent (run room_with_candidate init).1
               "C" "R") as [Hroom _].
  - vm_compute. reflexivity.
  - vm_compute. reflexivity.
  - vm_compute. reflexivity.
  - rewrite Hroom. vm_compute. reflexivity.
Defined.

(** ** The host turns a candidate away, or a participant out *)

Lemma disconnect_lookup (sid : SocketId) (s : Server) (r : RoomId) :
  sid ∈ sockets s →
  rooms (disconnect sid s).1 !! r = disconnect_room sid <$> rooms s !! r.
Proof.
  intros Hlive. rewrite disconnect_live by done.
  by rewrite on_disconnect_rooms, lookup_fmap.
Qed.

Lemma disconnect_sockets (sid : SocketId) (s : Server) :
  sockets (disconnect sid s).1 = sockets s ∖ {[sid]}.
Proof. unfold disconnect. case_decide; [done|]. simpl. set_solver. Qed.

Lemma disconnect_not_present (sid : SocketId) (s : Server) (r : RoomId)
    (room' : Room) :
  sid ∈ sockets s →
  rooms (disconnect sid s).1 !! r = Some room' → ¬ present sid room'.
Proof.
  intros Hlive. rewrite disconnect_lookup by done.
  destruct (rooms s !! r) as [room|]; intros; simplify_eq/=.
  rewrite present_disconnect_room. by intros [? _].
Qed.

Lemma received_none (x : SocketId) (out : list Delivery) :
  (∀ d, d ∈ out → recipient d ≠ x) → received x out = [].
Proof.
  intros Hout. unfold received. rewrite filter_none; [done|].
  intros d Hd. by apply Hout.
Qed.



(** X11: when the host rejects a waiting candidate, the candidate receives
    approval-rejected and nothing else, its socket is closed, and it is
    afterwards neither joined nor waiting in any room of the registry; in
    the room of the request the other records stay. *)
Theorem reject_evicts_candidate (s : Server) (host : SocketId) (r : RoomId)
    (participantId : SocketId) (room : Room) (w : WaitingParticipant) :
  reachable s →
  host ∈ sockets s →
  rooms s !! r = Some room →
  hostId room = Some host →
  waitingParticipants room !! participantId = Some w →
  (participantId
     ∉ sockets (step (RejectParticipant host r participantId) s).1)
  ∧ (∀ r' room',
       rooms (step (RejectParticipant host r participantId) s).1 !! r'
         = Some room' →
       ¬ present participantId room')
  ∧ received participantId
      (step (RejectParticipant host r participantId) s).2
    = [ApprovalRejected "Host denied your request to join the meeting"]
  ∧ ∃ room',
      rooms (step (RejectParticipant host r participantId) s).1 !! r
        = Some room'
      ∧ participants room' = delete participantId (participants room)
      ∧ waitingParticipants room'
        = delete participantId (waitingParticipants room).
Proof.
  intros Hs Hhost Hroom Hh Hw.
  assert (Hlive : participantId ∈ sockets s).
  { eapply consistent_waiting_live; eauto using reachable_consistent. }
  simpl. unfold on_socket, reject_participant.
  rewrite decide_True by done. rewrite Hroom.
  rewrite decide_False by (by intros Hne; apply Hne).
  rewrite Hw. simpl. rewrite decide_True by done.
  rewrite then_disconnect_fst, then_disconnect_snd. simpl.
  set (s1 := set_rooms _ s).
  assert (Hlive1 : participantId ∈ sockets s1) by done.
  split. { rewrite disconnect_sockets. set_solver. }
  split. { intros r' room'. by apply disconnect_not_present. }
  split.
  { rewrite received_cons. simpl. rewrite decide_True by done.
    rewrite received_none; [done|].
    intros d (k & _ & _ & Hne)%disconnect_delivery. done. }
  exists (disconnect_room participantId
            (set_waiting (delete participantId (waitingParticipants room))
               room)).
  split.
  { rewrite disconnect_lookup by done. unfold s1. simpl.
    by rewrite lookup_insert_eq. }
  rewrite disconnect_room_participants, disconnect_room_waiting. simpl.
  split; [done|]. apply delete_id, lookup_delete_eq.
Qed.

Lemma reject_evicts_candidate_witness :
  received "C"
    (step (RejectParticipant "A" "R" "C") (run room_with_candidate init).1).2
  = [ApprovalRejected "Host denied your request to join the meeting"].
Proof.
  edestruct (reject_evicts_candidate (run room_with_candidate init).1
               "A" "R" "C") as (_ & _ & Hrecv & _).
  - apply run_reachable; [apply reachable_init|vm_compute; reflexivity].
  - vm_compute. reflexivity.
  - vm_compute. reflexivity.
  - vm_compute. reflexivity.
  - vm_compute. reflexivity.
  - exact Hrecv.
Defined.



(** ** Media toggles *)






(** X15: for one connection and one room, a second toggle-audio overrides
    the first, and toggle-audio and toggle-video can be swapped: the
    server ends in the same state. *)
Theorem toggles_compose (s : Server) (sid : SocketId) (r : RoomId)
    (peer1 peer2 : string) (e1 e2 : bool) :
  (step (ToggleAudio sid r peer2 e2)
     (step (ToggleAudio sid r peer1 e1) s).1).1
  = (step (ToggleAudio sid r peer2 e2) s).1
  ∧ (step (ToggleVideo sid r peer2 e2)
       (step (ToggleAudio sid r peer1 e1) s).1).1
    = (step (ToggleAudio sid r peer1 e1)
         (step (ToggleVideo sid r peer2 e2) s).1).1.
Proof.
  simpl. unfold on_socket.
  destruct (decide (sid ∈ sockets s)) as [Hlive|Hdead]; simpl.
  2:{ rewrite !decide_False by done. done. }
  unfold settle, toggle_audio, toggle_video.
  destruct (rooms s !! r) as [room|] eqn:Hr; simpl.
  2:{ destruct (inherited_name r); simpl;
        rewrite !decide_True by done; rewrite !Hr; done. }
  destruct (participants room !! sid) as [p|] eqn:Hp; simpl.
  2:{ rewrite !decide_True by done. rewrite !Hr, !Hp. done. }
  rewrite !decide_True by done. simpl. rewrite !lookup_insert_eq. simpl.
  rewrite !lookup_insert_eq. simpl. rewrite !insert_insert_eq. done.
Qed.

(** ** Decisions of the host, repeated and combined *)







(** With an inherited name that is no participant, every remove-participant
    request of the host is broadcast to the other participants, and the
    state stays as it is. *)
Lemma remove_inherited_repeats (s : Server) (host : SocketId) (r : RoomId)
    (pid : SocketId) (peer : string) (room : Room) :
  host ∈ sockets s → rooms s !! r = Some room → hostId room = Some host →
  participants room !! pid = None → inherited_name pid = true →
  pid ∉ sockets s →
  step (RemoveParticipant host r pid peer) s
  = (s, socket_to_room s host r (UserRemoved pid peer)).
Proof.
  intros Hhost Hr Hh Hp Hinh Hdead. simpl.
  unfold on_socket, remove_participant.
  rewrite decide_True by done. rewrite Hr.
  rewrite decide_False by (by intros Hn; apply Hn). rewrite Hp, Hinh.
  unfold then_disconnect, io_to_socket. simpl.
  rewrite disconnect_dead by done. rewrite decide_False by done. simpl.
  by rewrite app_nil_r.
Qed.


(** X17: what a candidate sends with join-room is what it is admitted
    with: after join-room without the host flag in a room that has a host
    and the host's approve-participant, the candidate's record holds its
    id, the username and the peerId of the request and the time of the
    request, with audio and video on and [isHost] off; the other records,
    the host and the waiting entries of the others are as before. *)
Theorem join_then_approve (s : Server) (sid host : SocketId) (r : RoomId)
    (user peer : string) (room : Room) :
  sid ∈ sockets s →
  host ∈ sockets s →
  rooms s !! r = Some room →
  hostId room = Some host →
  ∃ room2,
    rooms (step (ApproveParticipant host r sid)
             (step (JoinRoom sid r user peer false) s).1).1 !! r
      = Some room2
    ∧ participants room2
      = <[sid := {| p_id := sid; username := user; peerId := peer;
                    socketId := sid; joinedAt := now s;
                    audioEnabled := true; videoEnabled := true;
                    isHost := false |}]> (participants room)
    ∧ waitingParticipants room2 = delete sid (waitingParticipants room)
    ∧ hostId room2 = Some host
    ∧ hostPeerId room2 = hostPeerId room.
Proof.
  intros Hsid Hhost Hr Hh. simpl. unfold on_socket at 2.
  rewrite decide_True by done. unfold settle, join_room.
  rewrite Hr, Hh. simpl.
  unfold on_socket. rewrite decide_True by done.
  unfold approve_participant. simpl. rewrite lookup_insert_eq. simpl.
  rewrite decide_False by (by intros Hn; apply Hn).
  rewrite lookup_insert_eq. simpl. rewrite decide_True by done. simpl.
  eexists. split; [by rewrite lookup_insert_eq|]. simpl.
  split; [done|]. split; [|done]. apply delete_insert_eq.
Qed.

Lemma join_then_approve_witness :
  ∃ room2,
    rooms (step (ApproveParticipant "A" "R" "B")
             (step (JoinRoom "B" "R" "bob" "pb" false)
                (connect "B" (run hosted_room init).1)).1).1 !! "R"
      = Some room2
    ∧ hostId room2 = Some "A".
Proof.
  edestruct (join_then_approve (connect "B" (run hosted_room init).1)
               "B" "A" "R" "bob" "pb")
    as (room2 & Hr2 & _ & _ & Hh2 & _).
  - vm_compute. reflexivity.
  - vm_compute. reflexivity.
  - vm_compute. reflexivity.
  - vm_compute. reflexivity.
  - exists room2. split; [exact Hr2|exact Hh2].
Defined.

(** X18: a request that ends in a refusal leaves the room as it was: when
    a connection that is not in the room asks to join, is put in the
    waiting set, and is then rejected by the host, or loses its connection,
    the room of the registry is exactly the room before the request. *)
Theorem join_then_leave (s : Server) (sid host : SocketId) (r : RoomId)
    (user peer : string) (room : Room) :
  sid ∈ sockets s →
  host ∈ sockets s →
  rooms s !! r = Some room →
  hostId room = Some host →
  ¬ present sid room →
  rooms (step (RejectParticipant host r sid)
           (step (JoinRoom sid r user peer false) s).1).1 !! r
    = Some room
  ∧ rooms (step (Disconnect sid)
             (step (JoinRoom sid r user peer false) s).1).1 !! r
    = Some room.
Proof.
  intros Hsid Hhost Hr Hh Hnot.
  assert (Hp : participants room !! sid = None).
  { apply not_elem_of_dom. intros ?. apply Hnot. by left. }
  assert (Hw : waitingParticipants room !! sid = None).
  { apply not_elem_of_dom. intros ?. apply Hnot. by right. }
  assert (Hback : ∀ w,
            disconnect_room sid
              (set_waiting (delete sid (<[sid := w]> (waitingParticipants room)))
                 room) = room).
  { intros w. rewrite delete_insert_eq, delete_id by done.
    unfold disconnect_room. simpl. rewrite Hp. simpl. rewrite Hw.
    by destruct room. }
  assert (Hback' : ∀ w,
            disconnect_room sid
              (set_waiting (<[sid := w]> (waitingParticipants room)) room)
            = room).
  { intros w. unfold disconnect_room. simpl. rewrite Hp. simpl.
    rewrite lookup_insert_eq. simpl.
    rewrite delete_insert_eq, delete_id by done. by destruct room. }
  simpl. unfold on_socket at 2 3. rewrite !decide_True by done.
  unfold settle, join_room. rewrite Hr, Hh. simpl. split.
  - unfold on_socket. rewrite decide_True by done.
    unfold reject_participant. simpl. rewrite lookup_insert_eq. simpl.
    rewrite decide_False by (by intros Hn; apply Hn).
    rewrite lookup_insert_eq. simpl. rewrite decide_True by done.
    rewrite then_disconnect_fst. simpl.
    rewrite disconnect_lookup by done. simpl.
    rewrite lookup_insert_eq. simpl. f_equal. exact (Hback _).
  - rewrite disconnect_lookup by done. simpl.
    rewrite lookup_insert_eq. simpl. f_equal. exact (Hback' _).
Qed.

Lemma join_then_leave_witness :
  rooms (step (RejectParticipant "A" "R" "B")
           (step (JoinRoom "B" "R" "bob" "pb" false)
              (connect "B" (run hosted_room init).1)).1).1 !! "R"
  = rooms (connect "B" (run hosted_room init).1) !! "R".
Proof.
  edestruct (join_then_leave (connect "B" (run hosted_room init).1)
               "B" "A" "R" "bob" "pb") as [Hreject _].
  - vm_compute. reflexivity.
  - vm_compute. reflexivity.
  - vm_compute. reflexivity.
  - vm_compute. reflexivity.
  - intros [Hin|Hin]; apply elem_of_dom in Hin as [x Hx];
      vm_compute in Hx; discriminate.
  - rewrite Hreject. vm_compute. reflexivity.
Defined.

(** ** The queries *)

Lemma values_by_key {A} (f : A → string) (l : list (string * A)) :
  (∀ k a, (k, a) ∈ l → f a = k) → f <$> l.*2 = l.*1.
Proof.
  induction l as [|[k a] l IH]; intros Hl; [done|]. simpl. f_equal.
  - apply Hl. apply list_elem_of_here.
  - apply IH. intros k' a' Hin. apply Hl. by apply list_elem_of_further.
Qed.

(** X19: get-waiting-participants answers the host of the room, in a
    reachable state, with one list that holds every waiting connection of
    the room exactly once, and leaves the state as it is; a caller that is
    not the host gets no answer at all, not even an error. *)
Theorem waiting_list_complete (s : Server) (sid : SocketId) (r : RoomId)
    (room : Room) :
  reachable s →
  sid ∈ sockets s →
  rooms s !! r = Some room →
  (hostId room = Some sid →
   ∃ l, step (GetWaitingParticipants sid r) s
        = (s, [mkDelivery Direct sid (WaitingParticipantsMsg l)])
        ∧ NoDup (w_id <$> l)
        ∧ (∀ x, x ∈ w_id <$> l ↔ is_Some (waitingParticipants room !! x))
        ∧ ∀ w, w ∈ l ↔ waitingParticipants room !! w_id w = Some w)
  ∧ (hostId room ≠ Some sid →
     step (GetWaitingParticipants sid r) s = (s, [])).
Proof.
  intros Hs Hlive Hr. simpl. unfold on_socket, get_waiting_participants.
  rewrite decide_True by done. rewrite Hr. split.
  2:{ intros Hne. by rewrite decide_True. }
  intros Hh. rewrite decide_False by (by intros Hn; apply Hn).
  destruct (reachable_keyed s r room Hs Hr) as (_ & _ & Hkw).
  assert (Hids : w_id <$> (map_to_list (waitingParticipants room)).*2
                 = (map_to_list (waitingParticipants room)).*1).
  { apply values_by_key. intros k w Hin%elem_of_map_to_list.
    by apply Hkw. }
  eexists. split; [done|]. rewrite Hids. split; [|split].
  - apply NoDup_fst_map_to_list.
  - intros x. rewrite list_elem_of_fmap. split.
    + intros ([k w] & -> & Hin%elem_of_map_to_list). by eexists.
    + intros [w Hw]. exists (x, w). split; [done|].
      by apply elem_of_map_to_list.
  - intros w. rewrite list_elem_of_fmap. split.
    + intros ([k w'] & -> & Hin%elem_of_map_to_list). simpl.
      destruct (Hkw k w' Hin) as [-> _]. done.
    + intros Hw. exists (w_id w, w). split; [done|].
      by apply elem_of_map_to_list.
Qed.

Lemma waiting_list_complete_witness :
  ∃ l, step (GetWaitingParticipants "A" "R") (run room_with_candidate init).1
       = ((run room_with_candidate init).1,
          [mkDelivery Direct "A" (WaitingParticipantsMsg l)])
       ∧ NoDup (w_id <$> l).
Proof.
  edestruct (waiting_list_complete (run room_with_candidate init).1 "A" "R")
    as [Hhost _].
  - apply run_reachable; [apply reachable_init|vm_compute; reflexivity].
  - vm_compute. reflexivity.
  - vm_compute. reflexivity.
  - destruct Hhost as (l & Hstep & Hnd & _); [vm_compute; reflexivity|].
    exists l. split; [exact Hstep|exact Hnd].
Defined.




(** X21: where [host_invariant] holds for a room of a reachable state, the
    two HTTP endpoints tell the same about who is host: the flags [isHost]
    that [GET /api/room/:roomId] computes from [hostId] are the flags
    stored in the records, which [GET /api/debug/rooms] reports, and the
    two report the same counts and host. *)
Theorem endpoints_agree (s : Server) (r : RoomId) (room : Room) :
  reachable s →
  rooms s !! r = Some room →
  host_invariant room →
  ∃ info summary,
    get_room_info r s = Some info
    ∧ debug_rooms s !! r = Some summary
    ∧ i_isHost <$> i_participants info = d_isHost <$> d_participants summary
    ∧ i_username <$> i_participants info
      = d_username <$> d_participants summary
    ∧ participantCount info = d_participantCount summary
    ∧ waitingCount info = d_waitingCount summary
    ∧ (hasHost info = true ↔ is_Some (d_hostId summary)).
Proof.
  intros Hs Hr Hinv. unfold get_room_info, get_room, debug_rooms.
  rewrite Hr, lookup_fmap, Hr. simpl. eexists _, _.
  split; [done|]. split; [done|]. simpl.
  destruct (reachable_keyed s r room Hs Hr) as (_ & Hkp & _).
  apply host_invariant_slot in Hinv.
  split; [|split; [|split; [done|split; [done|]]]].
  - rewrite <- !list_fmap_compose. apply list_fmap_ext.
    intros i [k p'] Hp. simpl.
    apply list_elem_of_lookup_2, elem_of_map_to_list in Hp.
    destruct (Hkp k p' Hp) as [Hid _]. rewrite Hid.
    destruct (isHost p') eqn:Hflag.
    + apply bool_decide_eq_true_2. symmetry. apply (Hinv k). by exists p'.
    + apply bool_decide_eq_false_2. intros Hh. symmetry in Hh.
      apply (Hinv k) in Hh as (p'' & Hp'' & Htrue). congruence.
  - rewrite <- !list_fmap_compose. by apply list_fmap_ext.
  - by rewrite bool_decide_eq_true.
Qed.

Lemma endpoints_agree_witness :
  ∃ info summary,
    get_room_info "R" (run hosted_room init).1 = Some info
    ∧ debug_rooms (run hosted_room init).1 !! "R" = Some summary
    ∧ i_isHost <$> i_participants info = d_isHost <$> d_participants summary.
Proof.
  edestruct (endpoints_agree (run hosted_room init).1 "R"
               (set_participants
                  (<["A" := host_record "A" "alice" "pa" 0]> ∅)
                  (set_host (Some "A") (Some "pa") (new_room "R" 0))))
    as (info & summary & Hinfo & Hsum & Hflags & _).
  - apply run_reachable; [apply reachable_init|vm_compute; reflexivity].
  - vm_compute. reflexivity.
  - apply host_invariant_slot. intros x. simpl.
    destruct (decide (x = "A")) as [->|Hne].
    + split; [done|]. intros _. vm_compute. eexists. split; reflexivity.
    + split.
      * intros (px & Hpx & _). rewrite lookup_insert_ne in Hpx by done.
        by rewrite lookup_empty in Hpx.
      * intros [= <-]. done.
  - exists info, summary. split; [exact Hinfo|]. split; [exact Hsum|].
    exact Hflags.
Defined.

(** ** The registry and the socket.io tables *)



(** ** The conditional invariants at work *)

Lemma host_disconnect_vacates_witness :
  ∃ room',
    rooms (step (Disconnect "A") (run host_removes_itself init).1).1 !! "R"
      = Some room'
    ∧ hostId room' = None
    ∧ filter (λ m, is_host_left m)
        (received_in "R" "B"
           (step (Disconnect "A") (run host_removes_itself init).1).2)
      = [HostLeft].
Proof.
  edestruct (host_disconnect_vacates (run host_removes_itself init).1
               "A" "R") as (room' & Hroom' & Hh & _ & Hp & Hrecv).
  - apply reachable_consistent.
    apply run_reachable; [apply reachable_init|vm_compute; reflexivity].
  - vm_compute. reflexivity.
  - vm_compute. reflexivity.
  - vm_compute. reflexivity.
  - vm_compute. eexists. reflexivity.
  - exists room'. split; [exact Hroom'|]. split; [exact Hh|].
    apply Hrecv. rewrite Hp. vm_compute. eexists. reflexivity.
Defined.

Lemma all_disjoint_init : all_disjoint init.
Proof. intros r room Hr. simpl in Hr. by rewrite lookup_empty in Hr. Qed.

Lemma disjoint_sets_preserved_witness :
  all_disjoint
    (step (JoinRoom "A" "R" "alice" "pa" false)
       (step (Connect "A") (step (CreateRoom "R") init).1).1).1.
Proof.
  apply (disjoint_sets_preserved
           (step (Connect "A") (step (CreateRoom "R") init).1).1
           (JoinRoom "A" "R" "alice" "pa" false)).
  - apply (disjoint_sets_preserved (step (CreateRoom "R") init).1
             (Connect "A")).
    + apply (disjoint_sets_preserved init (CreateRoom "R")).
      * exact all_disjoint_init.
      * exact I.
    + exact I.
  - intros room Hr [Hin|Hin]; vm_compute in Hr; injection Hr as <-;
      apply elem_of_dom in Hin as [x Hx]; vm_compute in Hx; discriminate.
Defined.

Lemma all_hosts_init : all_hosts init.
Proof. intros r room Hr. simpl in Hr. by rewrite lookup_empty in Hr. Qed.

Lemma host_invariant_preserved_witness :
  all_hosts
    (step (JoinRoom "A" "R" "alice" "pa" true)
       (step (Connect "A") (step (CreateRoom "R") init).1).1).1.
Proof.
  apply (host_invariant_preserved
           (step (Connect "A") (step (CreateRoom "R") init).1).1
           (JoinRoom "A" "R" "alice" "pa" true)).
  - apply (host_invariant_preserved (step (CreateRoom "R") init).1
             (Connect "A")).
    + apply (host_invariant_preserved init (CreateRoom "R")).
      * exact all_hosts_init.
      * exact I.
    + exact I.
  - intros _ room Hr. vm_compute in Hr. injection Hr as <-. by left.
Defined.

(** ** A room from its creation to its first member *)

(** X26: whoever joins a room first is its host, whatever [isHost] it
    sends: after [POST /api/room] has stored a room under [r], join-room
    for [r] from a connected socket answers that socket with host-status
    and an empty room-participants roster, and [GET /api/room/:roomId]
    then reports one participant, nobody waiting, a host, and that
    participant as the host, joined at the present time. *)
Theorem first_join_hosts (s : Server) (sid : SocketId) (r : RoomId)
    (user peer : string) (flag : bool) :
  sid ∈ sockets s →
  let s1 := (step (CreateRoom r) s).1 in
  let res := step (JoinRoom sid r user peer flag) s1 in
  res.2 = [mkDelivery Direct sid (HostStatus true);
           mkDelivery Direct sid (RoomParticipants ∅)]
  ∧ rooms res.1 !! r
    = Some (set_participants (<[sid := host_record sid user peer (now s)]> ∅)
              (set_host (Some sid) (Some peer) (new_room r (now s))))
  ∧ get_room_info r res.1
    = Some {| i_roomId := r; participantCount := 1; waitingCount := 0;
              hasHost := true;
              i_participants :=
                [{| i_username := user; i_joinedAt := now s;
                    i_isHost := true |}] |}.
Proof.
  intros Hsid s1 res. subst s1 res. simpl. unfold on_socket.
  rewrite decide_True by done.
  unfold settle, join_room, create_room. simpl.
  rewrite lookup_insert_eq. simpl.
  rewrite orb_true_r. simpl. split; [done|].
  unfold get_room_info, get_room. simpl. rewrite lookup_insert_eq. simpl.
  split; [done|].
  rewrite insert_empty, map_size_singleton, map_to_list_singleton. simpl.
  by rewrite bool_decide_eq_true_2.
Qed.

Lemma first_join_hosts_witness :
  get_room_info "R"
    (step (JoinRoom "A" "R" "alice" "pa" false)
       (step (CreateRoom "R") (step (Connect "A") init).1).1).1
  = Some {| i_roomId := "R"; participantCount := 1; waitingCount := 0;
            hasHost := true;
            i_participants :=
              [{| i_username := "alice"; i_joinedAt := 0%N;
                  i_isHost := true |}] |}.
Proof.
  apply (first_join_hosts (step (Connect "A") init).1 "A" "R" "alice" "pa"
           false).
  vm_compute. reflexivity.
Defined.
